(** * ROVIOLI application controller (applications/rovioli/app/rovioli-app.cc)

    A shallow embedding of [rovioli::RovioliApp] and of [main]: the gflags
    globals, the ROS parameter overrides of the constructor, [init] with its
    CHECKs and its save-folder allocation loop, [run], [saveMap],
    [saveMapCallback], [shutdown] and the wait loop of [main].

    Calls into collaborators whose code lives elsewhere (the file system
    tests of maplab-common, the map and calibration loaders, the message
    flow, the ROVIOLI node) are answered by an environment record and leave
    an event in a chronological trace, so that their order can be stated. *)

From Stdlib Require Import String Ascii List Bool NArith ZArith Arith Lia.
From Stdlib Require Import DecimalString.
Import ListNotations.

Open Scope string_scope.
Open Scope list_scope.

Module Rovioli.

(** ** Strings and [size_t] *)

(** [std::string::empty]. *)
Definition empty (s : string) : bool :=
  match s with
  | EmptyString => true
  | String _ _ => false
  end.

(** [std::to_string] on an unsigned value: its decimal digits. *)
Definition to_string (n : N) : string :=
  NilEmpty.string_of_uint (N.to_uint n).

(** [counter++] on a [size_t] of [bits] bits: the successor, wrapping to 0. *)
Definition size_t_succ (bits : N) (counter : N) : N :=
  (counter + 1) mod (2 ^ bits).

(** ** gflags: the process-wide settings *)

Record Flags : Type := mkFlags {
  FLAGS_vio_localization_map_folder : string;
  FLAGS_ncamera_calibration : string;
  FLAGS_imu_parameters_maplab : string;
  FLAGS_external_imu_parameters_rovio : string;
  FLAGS_save_map_folder : string;
  FLAGS_overwrite_existing_map : bool;
  FLAGS_optimize_map_to_localization_map : bool;
  FLAGS_save_map_on_shutdown : bool;
  (* DECLAREd here, DEFINEd in other libraries *)
  FLAGS_map_builder_save_image_as_resources : bool;
  FLAGS_datasource_type : string;
  FLAGS_datasource_rosbag : string;
  FLAGS_publish_debug_markers : bool;
  FLAGS_rovio_enable_frame_visualization : bool
}.

(** The flag values the DEFINE_ lines of this file give; the five DECLAREd
    flags have their defaults elsewhere and are taken as arguments. *)
Definition default_flags (save_resources : bool) (ds_type ds_rosbag : string)
    (debug_markers frame_vis : bool) : Flags :=
  {| FLAGS_vio_localization_map_folder := "";
     FLAGS_ncamera_calibration := "ncamera.yaml";
     FLAGS_imu_parameters_maplab := "imu-maplab.yaml";
     FLAGS_external_imu_parameters_rovio := "";
     FLAGS_save_map_folder := "";
     FLAGS_overwrite_existing_map := false;
     FLAGS_optimize_map_to_localization_map := false;
     FLAGS_save_map_on_shutdown := true;
     FLAGS_map_builder_save_image_as_resources := save_resources;
     FLAGS_datasource_type := ds_type;
     FLAGS_datasource_rosbag := ds_rosbag;
     FLAGS_publish_debug_markers := debug_markers;
     FLAGS_rovio_enable_frame_visualization := frame_vis |}.

(** ** The ROS parameter server seen through [nh_private_] *)

Inductive XmlRpcValue : Type :=
| TypeString (s : string)
| TypeBoolean (b : bool).

Definition ParamServer : Type := string -> option XmlRpcValue.

(** [NodeHandle::param(name, var, default)]: the stored value when the
    parameter is set with the type of [var], the default otherwise. *)
Definition param_string (ps : ParamServer) (name default : string) : string :=
  match ps name with
  | Some (TypeString s) => s
  | _ => default
  end.

Definition param_bool (ps : ParamServer) (name : string) (default : bool) : bool :=
  match ps name with
  | Some (TypeBoolean b) => b
  | _ => default
  end.

(** ** Collaborators *)

Record LocalizationSummaryMap : Type := mkSummaryMap {
  (* localization_map_->GLandmarkPosition().cols() *)
  GLandmarkPosition_cols : N
}.

Record ImuSigmas : Type := mkImuSigmas { isValid : bool }.
Record Imu : Type := mkImu { getImuSigmas : ImuSigmas }.

(** Handles on objects this file only passes along. *)
Definition VIMap : Type := N.
Definition NCamera : Type := N.

(** What the world outside this file answers.  The two file system tests are
    those of maplab-common: [common::fileExists] holds of the name of a
    regular file, [common::pathExists] of the name of a directory.  The
    loaders return [None] where the C++ returns false or a null pointer. *)
Record Env : Type := mkEnv {
  fileExists : string -> bool;
  pathExists : string -> bool;
  LocalizationSummaryMap_loadFromFolder : string -> option LocalizationSummaryMap;
  loadMapFromFolder : string -> option VIMap;
  createLocalizationSummaryMapForWellConstrainedLandmarks :
    VIMap -> LocalizationSummaryMap;
  NCamera_loadFromYaml : string -> option NCamera;
  createFromYaml_Imu : string -> option Imu;
  ImuSigmas_loadFromYaml : string -> option ImuSigmas;
  getNumHardwareThreads : N;
  (* width of size_t on the target *)
  size_t_bits : N;
  (* whether the node's persist operation manages to write the map;
     [saveMapAndOptionallyOptimize] is called as a statement, whatever it
     reports is dropped by the caller *)
  persist_succeeds : string -> bool -> bool -> bool
}.

(** ** The save-folder allocation of [init] (lines 199-208) *)

Section Allocation.
Variable env : Env.

(** The condition of the while loop. *)
Definition taken (overwrite : bool) (candidate : string) : bool :=
  fileExists env candidate || (negb overwrite && pathExists env candidate).

(** The while loop, [fuel] bounding the number of condition tests:
    [None] when the loop is still running after [fuel] tests. *)
Fixpoint allocate_loop (fuel : nat) (requested : string) (overwrite : bool)
    (save_map_folder_ : string) (counter : N) : option string :=
  match fuel with
  | O => None
  | S fuel' =>
      if taken overwrite save_map_folder_
      then allocate_loop fuel' requested overwrite
             (requested ++ "_" ++ to_string counter)
             (size_t_succ (size_t_bits env) counter)
      else Some save_map_folder_
  end.

(** Lines 199-208: [save_map_folder_ = FLAGS_save_map_folder], then the
    loop when that is not empty.  The value is the folder the loop ends
    with; the candidates it goes through on the way are not kept. *)
Definition allocate (fuel : nat) (requested : string) (overwrite : bool)
    : option string :=
  if negb (empty requested)
  then allocate_loop fuel requested overwrite requested 0%N
  else Some requested.

(** The candidate with suffix [n]. *)
Definition suffixed (requested : string) (n : N) : string :=
  requested ++ "_" ++ to_string n.

(** A path denotes an existing entry when either test of maplab-common
    answers yes. *)
Definition exists_on_fs (p : string) : bool :=
  fileExists env p || pathExists env p.
End Allocation.

(** ** Process state *)

(** [message_flow::MessageFlow::create<MessageDispatcherFifo>(n)]. *)
Record MessageFlow : Type := mkMessageFlow { dispatcher_threads : N }.

(** The arguments [rovioli::RovioliNode] is constructed with. *)
Record RovioliNode : Type := mkRovioliNode {
  node_camera_system : NCamera;
  node_maplab_imu_sensor : Imu;
  node_rovio_imu_sigmas : ImuSigmas;
  node_save_map_folder : string;
  node_localization_map : option LocalizationSummaryMap
}.

(** The data members of [RovioliApp]; a [unique_ptr] is [None] when null. *)
Record RovioliApp : Type := mkRovioliApp {
  initialized_ : bool;
  save_map_folder_ : string;
  rovioli_spinner_ : N;
  message_flow_ : option MessageFlow;
  localization_map_ : option LocalizationSummaryMap;
  rovio_localization_node_ : option RovioliNode
}.

Inductive severity : Type := INFO | WARNING | ERROR | FATAL.

(** What the process does to the outside, in the order it does it. *)
Inductive event : Type :=
| Log (sev : severity)                       (* LOG(sev), a failed CHECK *)
| RosLog (sev : severity)                    (* ROS_INFO_STREAM, ROS_FATAL *)
| AdvertiseService (name : string)
| SummaryMapLoad (folder : string) (ok : bool)
| VIMapLoad (folder : string) (ok : bool)
| SummaryMapCreate
| CalibrationLoad (path : string) (ok : bool)
| ImuLoad (path : string) (ok : bool)
| ImuSigmasLoad (path : string) (ok : bool)
| MessageFlowCreate (threads : N)
| NodeConstruct (save_folder : string)
| SpinnerStart
| NodeStart
| NodeSaveMap (path : string) (overwrite optimize written : bool)
| NodeShutdown
| MessageFlowShutdown
| MessageFlowWaitUntilIdle
| RosShutdown
| Sleep.

Record State : Type := mkState {
  FLAGS : Flags;
  this : RovioliApp;
  ros_shutdown_requested : bool;
  trace : list event
}.

Definition set_FLAGS (g : Flags) (s : State) : State :=
  mkState g (this s) (ros_shutdown_requested s) (trace s).

Definition set_this (a : RovioliApp) (s : State) : State :=
  mkState (FLAGS s) a (ros_shutdown_requested s) (trace s).

Definition set_initialized_ (b : bool) (a : RovioliApp) : RovioliApp :=
  mkRovioliApp b (save_map_folder_ a) (rovioli_spinner_ a) (message_flow_ a)
    (localization_map_ a) (rovio_localization_node_ a).

Definition set_save_map_folder_ (p : string) (a : RovioliApp) : RovioliApp :=
  mkRovioliApp (initialized_ a) p (rovioli_spinner_ a) (message_flow_ a)
    (localization_map_ a) (rovio_localization_node_ a).

Definition set_message_flow_ (f : option MessageFlow) (a : RovioliApp)
    : RovioliApp :=
  mkRovioliApp (initialized_ a) (save_map_folder_ a) (rovioli_spinner_ a) f
    (localization_map_ a) (rovio_localization_node_ a).

Definition set_localization_map_ (m : option LocalizationSummaryMap)
    (a : RovioliApp) : RovioliApp :=
  mkRovioliApp (initialized_ a) (save_map_folder_ a) (rovioli_spinner_ a)
    (message_flow_ a) m (rovio_localization_node_ a).

Definition set_rovio_localization_node_ (n : option RovioliNode)
    (a : RovioliApp) : RovioliApp :=
  mkRovioliApp (initialized_ a) (save_map_folder_ a) (rovioli_spinner_ a)
    (message_flow_ a) (localization_map_ a) n.

(** ** The monad of the embedding *)

(** A computation returns, or the process dies in it (a failed CHECK, a
    null [unique_ptr] dereferenced), or it is still inside a loop when the
    fuel or the observations given to it run out. *)
Inductive result (A : Type) : Type :=
| Returned (a : A) (s : State)
| Aborted (s : State)
| StillRunning (s : State).

Arguments Returned {A} a s.
Arguments Aborted {A} s.
Arguments StillRunning {A} s.

Definition M (A : Type) : Type := State -> result A.

Definition ret {A : Type} (a : A) : M A := fun s => Returned a s.

Definition bind {A B : Type} (m : M A) (k : A -> M B) : M B :=
  fun s =>
    match m s with
    | Returned a s' => k a s'
    | Aborted s' => Aborted s'
    | StillRunning s' => StillRunning s'
    end.

Notation "x <- m ;; k" := (bind m (fun x => k))
  (at level 61, m at next level, right associativity).
Notation "m ;; k" := (bind m (fun _ => k))
  (at level 61, right associativity).

Definition final_state {A : Type} (r : result A) : State :=
  match r with
  | Returned _ s => s
  | Aborted s => s
  | StillRunning s => s
  end.

Definition get_FLAGS : M Flags := fun s => Returned (FLAGS s) s.
Definition get_this : M RovioliApp := fun s => Returned (this s) s.
Definition put_FLAGS (g : Flags) : M unit := fun s => Returned tt (set_FLAGS g s).
Definition modify_this (f : RovioliApp -> RovioliApp) : M unit :=
  fun s => Returned tt (set_this (f (this s)) s).

Definition emit (e : event) : M unit :=
  fun s =>
    Returned tt (mkState (FLAGS s) (this s) (ros_shutdown_requested s)
                   (trace s ++ [e])).

Definition abort {A : Type} : M A := fun s => Aborted s.
Definition still_running {A : Type} : M A := fun s => StillRunning s.

(** glog's CHECK: a FATAL line and the end of the process when it fails. *)
Definition CHECK (b : bool) : M unit :=
  if b then ret tt else emit (Log FATAL) ;; abort.

(** [rovio_localization_node_->] and [message_flow_->]: the pointee, the
    process dying on a null pointer. *)
Definition deref_node : M RovioliNode :=
  a <- get_this ;;
  match rovio_localization_node_ a with
  | Some n => ret n
  | None => abort
  end.

Definition deref_flow : M MessageFlow :=
  a <- get_this ;;
  match message_flow_ a with
  | Some f => ret f
  | None => abort
  end.

(** [ros::shutdown()] and [ros::ok()]; [up] is what the ROS runtime itself
    says (false after an interrupt). *)
Definition ros_shutdown : M unit :=
  fun s =>
    Returned tt (mkState (FLAGS s) (this s) true (trace s ++ [RosShutdown])).

Definition ros_ok (up : bool) : M bool :=
  fun s => Returned (up && negb (ros_shutdown_requested s)) s.

(** CHECK on a pointer: the pointee when it is not null. *)
Definition CHECK_ptr {A : Type} (p : option A) : M A :=
  match p with
  | Some a => ret a
  | None => emit (Log FATAL) ;; abort
  end.

Definition is_some {A : Type} (o : option A) : bool :=
  match o with
  | Some _ => true
  | None => false
  end.

(** A call to a loader: its event, then its answer. *)
Definition load {A : Type} (ev : bool -> event) (answer : option A)
    : M (option A) :=
  emit (ev (is_some answer)) ;; ret answer.

(** ** [rovioli::RovioliApp] *)

Section App.
Variable env : Env.

(** The constructor (lines 94-141): member initialisers, the ROS parameters
    written over the flags, the choice of the data source, the service. *)
Definition RovioliApp_ctor (ps : ParamServer) : M unit :=
  modify_this (fun _ =>
    mkRovioliApp false "" (getNumHardwareThreads env) None None None) ;;
  g <- get_FLAGS ;;
  put_FLAGS
    {| FLAGS_vio_localization_map_folder :=
         param_string ps "vio_localization_map_folder"
           (FLAGS_vio_localization_map_folder g);
       FLAGS_ncamera_calibration :=
         param_string ps "ncamera_calibration" (FLAGS_ncamera_calibration g);
       FLAGS_imu_parameters_maplab :=
         param_string ps "imu_parameters_maplab"
           (FLAGS_imu_parameters_maplab g);
       FLAGS_external_imu_parameters_rovio :=
         FLAGS_external_imu_parameters_rovio g;
       FLAGS_save_map_folder :=
         param_string ps "save_map_folder" (FLAGS_save_map_folder g);
       FLAGS_overwrite_existing_map :=
         param_bool ps "overwrite_existing_map"
           (FLAGS_overwrite_existing_map g);
       FLAGS_optimize_map_to_localization_map :=
         param_bool ps "optimize_map_to_localization_map"
           (FLAGS_optimize_map_to_localization_map g);
       FLAGS_save_map_on_shutdown :=
         param_bool ps "save_map_on_shutdown" (FLAGS_save_map_on_shutdown g);
       FLAGS_map_builder_save_image_as_resources :=
         FLAGS_map_builder_save_image_as_resources g;
       FLAGS_datasource_type := FLAGS_datasource_type g;
       FLAGS_datasource_rosbag := FLAGS_datasource_rosbag g;
       FLAGS_publish_debug_markers :=
         param_bool ps "publish_debug_markers" (FLAGS_publish_debug_markers g);
       FLAGS_rovio_enable_frame_visualization :=
         param_bool ps "frame_visualization"
           (FLAGS_rovio_enable_frame_visualization g) |} ;;
  g <- get_FLAGS ;;
  (let bagfile := param_string ps "bagfile" "" in
   if negb (empty bagfile) && negb (FLAGS_datasource_type g =? "rostopic")
   then
     emit (RosLog INFO) ;;
     put_FLAGS
       (mkFlags (FLAGS_vio_localization_map_folder g)
          (FLAGS_ncamera_calibration g) (FLAGS_imu_parameters_maplab g)
          (FLAGS_external_imu_parameters_rovio g) (FLAGS_save_map_folder g)
          (FLAGS_overwrite_existing_map g)
          (FLAGS_optimize_map_to_localization_map g)
          (FLAGS_save_map_on_shutdown g)
          (FLAGS_map_builder_save_image_as_resources g)
          "rosbag" bagfile
          (FLAGS_publish_debug_markers g)
          (FLAGS_rovio_enable_frame_visualization g))
   else if (FLAGS_datasource_type g =? "rosbag")
           && empty (FLAGS_datasource_rosbag g)
   then
     emit (RosLog INFO) ;;
     put_FLAGS
       (mkFlags (FLAGS_vio_localization_map_folder g)
          (FLAGS_ncamera_calibration g) (FLAGS_imu_parameters_maplab g)
          (FLAGS_external_imu_parameters_rovio g) (FLAGS_save_map_folder g)
          (FLAGS_overwrite_existing_map g)
          (FLAGS_optimize_map_to_localization_map g)
          (FLAGS_save_map_on_shutdown g)
          (FLAGS_map_builder_save_image_as_resources g)
          "rostopic" (FLAGS_datasource_rosbag g)
          (FLAGS_publish_debug_markers g)
          (FLAGS_rovio_enable_frame_visualization g))
   else ret tt) ;;
  emit (AdvertiseService "save_map").

(** Lines 144-163 of [init]: optionally load the localization map. *)
Definition init_localization_map : M unit :=
  g <- get_FLAGS ;;
  let folder := FLAGS_vio_localization_map_folder g in
  if negb (empty folder) then
    modify_this (set_localization_map_ (Some (mkSummaryMap 0))) ;;
    loaded <- load (SummaryMapLoad folder)
                (LocalizationSummaryMap_loadFromFolder env folder) ;;
    match loaded with
    | Some m => modify_this (set_localization_map_ (Some m))
    | None =>
        emit (Log WARNING) ;;
        vi <- load (VIMapLoad folder) (loadMapFromFolder env folder) ;;
        vi_map <- CHECK_ptr vi ;;
        modify_this (set_localization_map_ (Some (mkSummaryMap 0))) ;;
        emit SummaryMapCreate ;;
        let m :=
          createLocalizationSummaryMapForWellConstrainedLandmarks env vi_map in
        modify_this (set_localization_map_ (Some m)) ;;
        (* CHECK_GT(localization_map_->GLandmarkPosition().cols(), 0) *)
        CHECK (0 <? GLandmarkPosition_cols m)%N
    end
  else ret tt.

(** Lines 165-188 of [init]: camera calibration and IMU parameters. *)
Definition init_calibration : M (NCamera * Imu * ImuSigmas) :=
  g <- get_FLAGS ;;
  cam <- load (CalibrationLoad (FLAGS_ncamera_calibration g))
           (NCamera_loadFromYaml env (FLAGS_ncamera_calibration g)) ;;
  camera_system <- CHECK_ptr cam ;;
  imu <- load (ImuLoad (FLAGS_imu_parameters_maplab g))
           (createFromYaml_Imu env (FLAGS_imu_parameters_maplab g)) ;;
  maplab_imu_sensor <- CHECK_ptr imu ;;
  CHECK (isValid (getImuSigmas maplab_imu_sensor)) ;;
  rovio_imu_sigmas <-
    (if negb (empty (FLAGS_external_imu_parameters_rovio g)) then
       sig <- load (ImuSigmasLoad (FLAGS_external_imu_parameters_rovio g))
                (ImuSigmas_loadFromYaml env
                   (FLAGS_external_imu_parameters_rovio g)) ;;
       sigmas <- CHECK_ptr sig ;;
       CHECK (isValid sigmas) ;;
       ret sigmas
     else ret (getImuSigmas maplab_imu_sensor)) ;;
  ret (camera_system, maplab_imu_sensor, rovio_imu_sigmas).

(** [RovioliApp::init] (lines 143-221). *)
Definition init (fuel : nat) : M bool :=
  init_localization_map ;;
  calib <- init_calibration ;;
  let '(camera_system, maplab_imu_sensor, rovio_imu_sigmas) := calib in
  g <- get_FLAGS ;;
  if FLAGS_map_builder_save_image_as_resources g
     && empty (FLAGS_save_map_folder g)
  then emit (Log ERROR) ;; ret false
  else
    (* the save folder, a number appended until the name is free *)
    match allocate env fuel (FLAGS_save_map_folder g)
            (FLAGS_overwrite_existing_map g) with
    | None => still_running
    | Some folder =>
        modify_this (set_save_map_folder_ folder) ;;
        (* Construct the application. *)
        emit (MessageFlowCreate (getNumHardwareThreads env)) ;;
        modify_this
          (set_message_flow_
             (Some (mkMessageFlow (getNumHardwareThreads env)))) ;;
        a <- get_this ;;
        emit (NodeConstruct (save_map_folder_ a)) ;;
        modify_this
          (set_rovio_localization_node_
             (Some (mkRovioliNode camera_system maplab_imu_sensor
                      rovio_imu_sigmas (save_map_folder_ a)
                      (localization_map_ a)))) ;;
        modify_this (set_initialized_ true) ;;
        ret true
    end.

(** [RovioliApp::run] (lines 223-233). *)
Definition run : M bool :=
  a <- get_this ;;
  if negb (initialized_ a) then ret false
  else
    emit SpinnerStart ;;
    _ <- deref_node ;;
    emit NodeStart ;;
    ret true.

(** [RovioliApp::shouldExit] (lines 235-238); the flag it hands out is read
    by the wait loop of [main]. *)
Definition shouldExit : M unit :=
  a <- get_this ;;
  CHECK (is_some (rovio_localization_node_ a)).

(** [RovioliApp::saveMap] (lines 246-255). *)
Definition saveMap : M bool :=
  a <- get_this ;;
  if negb (empty (save_map_folder_ a)) then
    g <- get_FLAGS ;;
    _ <- deref_node ;;
    emit (NodeSaveMap (save_map_folder_ a) (FLAGS_overwrite_existing_map g)
            (FLAGS_optimize_map_to_localization_map g)
            (persist_succeeds env (save_map_folder_ a)
               (FLAGS_overwrite_existing_map g)
               (FLAGS_optimize_map_to_localization_map g))) ;;
    ret true
  else ret false.

(** [RovioliApp::saveMapCallback] (lines 240-244): request and response are
    both [std_srvs::Empty] and unused. *)
Definition saveMapCallback : M bool := saveMap.

(** [RovioliApp::shutdown] (lines 257-261). *)
Definition shutdown : M unit :=
  _ <- deref_node ;;
  emit NodeShutdown ;;
  _ <- deref_flow ;;
  emit MessageFlowShutdown ;;
  _ <- deref_flow ;;
  emit MessageFlowWaitUntilIdle.

(** ** [main] *)

(** The wait loop (lines 288-291).  Each element of [polls] is what one test
    of the condition observes: whether ROS is up and the value of the
    data-source-exhausted flag.  The loop is still running when the
    observations run out. *)
Fixpoint wait_loop (polls : list (bool * bool)) : M unit :=
  match polls with
  | [] => still_running
  | (up, end_of_days_signal_received) :: rest =>
      ok <- ros_ok up ;;
      if ok && negb end_of_days_signal_received
      then emit Sleep ;; wait_loop rest
      else ret tt
  end.

(** Lines 275-291: construction, [init], [run] and the wait loop; the glog,
    gflags and ROS set-up of lines 266-273 comes before and leaves the flags
    as [main] finds them in its initial state. *)
Definition main_until_exit (ps : ParamServer) (fuel : nat)
    (polls : list (bool * bool)) : M unit :=
  RovioliApp_ctor ps ;;
  ok <- init fuel ;;
  (if negb ok then emit (RosLog FATAL) ;; ros_shutdown else ret tt) ;;
  ok <- run ;;
  (if negb ok then emit (RosLog FATAL) ;; ros_shutdown else ret tt) ;;
  shouldExit ;;
  wait_loop polls.

(** Lines 293-297: what [main] does once the loop is left. *)
Definition main_on_exit : M Z :=
  shutdown ;;
  g <- get_FLAGS ;;
  (if FLAGS_save_map_on_shutdown g then _ <- saveMap ;; ret tt else ret tt) ;;
  ret 0%Z.

Definition main (ps : ParamServer) (fuel : nat) (polls : list (bool * bool))
    : M Z :=
  main_until_exit ps fuel polls ;;
  main_on_exit.

(** ** Clients of the object *)

(** The public member functions, as a client or the service thread may call
    them one after the other. *)
Inductive method : Type :=
| call_init (fuel : nat)
| call_run
| call_saveMap
| call_saveMapCallback
| call_shouldExit
| call_shutdown.

Definition invoke (m : method) : M unit :=
  match m with
  | call_init fuel => _ <- init fuel ;; ret tt
  | call_run => _ <- run ;; ret tt
  | call_saveMap => _ <- saveMap ;; ret tt
  | call_saveMapCallback => _ <- saveMapCallback ;; ret tt
  | call_shouldExit => shouldExit
  | call_shutdown => shutdown
  end.

Fixpoint invoke_all (ms : list method) : M unit :=
  match ms with
  | [] => ret tt
  | m :: rest => invoke m ;; invoke_all rest
  end.

Definition is_init (m : method) : bool :=
  match m with
  | call_init _ => true
  | _ => false
  end.

End App.

(** The state of the process when [main] starts, with the flags as the
    command line left them; the object does not exist yet. *)
Definition process_start (g : Flags) : State :=
  mkState g (mkRovioliApp false "" 0 None None None) false [].

(** ** Concrete worlds *)

(** A world in which the default calibration files load, no map can be
    loaded, and the file system and the persist operation are as given. *)
Definition world (file dir : string -> bool) (persist : bool) : Env :=
  {| fileExists := file;
     pathExists := dir;
     LocalizationSummaryMap_loadFromFolder := fun _ => None;
     loadMapFromFolder := fun _ => None;
     createLocalizationSummaryMapForWellConstrainedLandmarks :=
       fun vi_map => mkSummaryMap vi_map;
     NCamera_loadFromYaml :=
       fun path => if path =? "ncamera.yaml" then Some 1%N else None;
     createFromYaml_Imu :=
       fun path =>
         if path =? "imu-maplab.yaml" then Some (mkImu (mkImuSigmas true))
         else None;
     ImuSigmas_loadFromYaml := fun _ => None;
     getNumHardwareThreads := 4;
     size_t_bits := 64;
     persist_succeeds := fun _ _ _ => persist |}.

Definition nothing : string -> bool := fun _ => false.

(** [/maps/out] is a regular file. *)
Definition world_out_is_file : Env :=
  world (fun p => p =? "/maps/out") nothing true.

(** [/maps/out] and [/maps/out_0] are directories. *)
Definition world_out_taken : Env :=
  world nothing (fun p => (p =? "/maps/out") || (p =? "/maps/out_0")) true.

(** Nothing exists yet and the persist operation fails to write. *)
Definition world_disk_full : Env := world nothing nothing false.

Definition no_params : ParamServer := fun _ => None.

(** Command lines: [--save_map_folder=/maps/out], and
    [--map_builder_save_image_as_resources] with and without a camera
    calibration that exists. *)
Definition flags_save_to_out : Flags :=
  mkFlags "" "ncamera.yaml" "imu-maplab.yaml" "" "/maps/out" false false true
    false "rostopic" "" false false.

Definition flags_resources_no_folder : Flags :=
  default_flags true "rostopic" "" false false.

Definition flags_resources_no_folder_bad_calibration : Flags :=
  mkFlags "" "missing.yaml" "imu-maplab.yaml" "" "" false false true
    true "rostopic" "" false false.

Definition flags_localize_in (folder : string) : Flags :=
  mkFlags folder "ncamera.yaml" "imu-maplab.yaml" "" "" false false true
    false "rostopic" "" false false.

(** A world in which [/maps/loc] holds a full VI map with 7 well-constrained
    landmarks but no localization summary map. *)
Definition world_full_map_only : Env :=
  {| fileExists := nothing;
     pathExists := nothing;
     LocalizationSummaryMap_loadFromFolder := fun _ => None;
     loadMapFromFolder :=
       fun folder => if folder =? "/maps/loc" then Some 7%N else None;
     createLocalizationSummaryMapForWellConstrainedLandmarks :=
       fun vi_map => mkSummaryMap vi_map;
     NCamera_loadFromYaml :=
       fun path => if path =? "ncamera.yaml" then Some 1%N else None;
     createFromYaml_Imu :=
       fun path =>
         if path =? "imu-maplab.yaml" then Some (mkImu (mkImuSigmas true))
         else None;
     ImuSigmas_loadFromYaml := fun _ => None;
     getNumHardwareThreads := 4;
     size_t_bits := 64;
     persist_succeeds := fun _ _ _ => true |}.

(** [--save_map_folder=/maps/out --overwrite_existing_map]. *)
Definition flags_overwrite_out : Flags :=
  mkFlags "" "ncamera.yaml" "imu-maplab.yaml" "" "/maps/out" true false true
    false "rostopic" "" false false.

(** The process after the constructor, and after [init] as well, for a
    command line [g] and no ROS parameter set. *)
Definition after_ctor (env : Env) (g : Flags) : State :=
  final_state (RovioliApp_ctor env no_params (process_start g)).

Definition after_init (env : Env) (fuel : nat) (g : Flags) : State :=
  final_state (init env fuel (after_ctor env g)).

(** ** Vocabulary of the properties *)

(** [P] survives the computation [m], however [m] ends. *)
Definition stable {A : Type} (P : State -> Prop) (m : M A) : Prop :=
  forall s, P s -> P (final_state (m s)).

(** The trace has grown from [t0] by events that all satisfy [Q]. *)
Definition grown_by (Q : event -> Prop) (t0 : list event) (s : State) : Prop :=
  exists new, trace s = t0 ++ new /\ Forall Q new.

(** What [shutdown] does, in order: the node is stopped, then the message
    flow is shut down and waited for. *)
Definition shutdown_events : list event :=
  [NodeShutdown; MessageFlowShutdown; MessageFlowWaitUntilIdle].

(** The events of lines 210-217, where the message flow and the node are
    built. *)
Definition is_construction (e : event) : bool :=
  match e with
  | MessageFlowCreate _ | NodeConstruct _ => true
  | _ => false
  end.

(** The events by which the pipeline starts running. *)
Definition is_start (e : event) : bool :=
  match e with
  | SpinnerStart | NodeStart => true
  | _ => false
  end.

(** A persist request, if [e] is one, carries these settings. *)
Definition saves_with (path : string) (overwrite optimize : bool) (e : event)
    : Prop :=
  match e with
  | NodeSaveMap p o z _ => p = path /\ o = overwrite /\ z = optimize
  | _ => True
  end.

(** Loading and logging: what [init] does before it builds anything. *)
Definition is_load_or_log (e : event) : bool :=
  match e with
  | Log _ | SummaryMapLoad _ _ | VIMapLoad _ _ | SummaryMapCreate
  | CalibrationLoad _ _ | ImuLoad _ _ | ImuSigmasLoad _ _ => true
  | _ => false
  end.

(** [s] differs from [s0] in the localization map and the trace at most. *)
Definition same_but_map (s0 s : State) : Prop :=
  FLAGS s = FLAGS s0
  /\ set_localization_map_ None (this s) = set_localization_map_ None (this s0).

(** The flags and the object are those of [s0]. *)
Definition same_object (s0 s : State) : Prop :=
  FLAGS s = FLAGS s0 /\ this s = this s0.

(** Both objects built by [init] are there. *)
Definition constructed (s : State) : Prop :=
  rovio_localization_node_ (this s) <> None /\ message_flow_ (this s) <> None.

(** ** More concrete worlds *)

(** Every name is the name of a regular file. *)
Definition world_all_files : Env := world (fun _ => true) nothing true.

(** [/maps/out] and [/maps/out_0] are regular files, [/maps/out_1] is a
    directory. *)
Definition world_files_then_dir : Env :=
  world (fun p => (p =? "/maps/out") || (p =? "/maps/out_0"))
    (fun p => p =? "/maps/out_1") true.

(** ROS parameters: a bag file given, and a bag file together with a save
    folder of the wrong type. *)
Definition params_bagfile : ParamServer :=
  fun name =>
    if name =? "bagfile" then Some (TypeString "/data/run.bag") else None.

Definition params_mistyped : ParamServer :=
  fun name =>
    if name =? "save_map_folder" then Some (TypeBoolean true)
    else if name =? "overwrite_existing_map" then Some (TypeBoolean true)
    else None.

(** Command lines [--datasource_type=rosbag] without a bag, and
    [--datasource_type=rostopic --datasource_rosbag=/old.bag]. *)
Definition flags_rosbag_no_bag : Flags :=
  default_flags false "rosbag" "" false false.

Definition flags_rostopic_old_bag : Flags :=
  default_flags false "rostopic" "/old.bag" false false.

(** A world whose map folders and ROVIO sigma files are as given; nothing
    exists in the save location and the calibration defaults load. *)
Definition world_with_maps
    (summary : string -> option LocalizationSummaryMap)
    (vi : string -> option VIMap) (sigmas : string -> option ImuSigmas)
    : Env :=
  {| fileExists := nothing;
     pathExists := nothing;
     LocalizationSummaryMap_loadFromFolder := summary;
     loadMapFromFolder := vi;
     createLocalizationSummaryMapForWellConstrainedLandmarks :=
       fun vi_map => mkSummaryMap vi_map;
     NCamera_loadFromYaml :=
       fun path => if path =? "ncamera.yaml" then Some 1%N else None;
     createFromYaml_Imu :=
       fun path =>
         if path =? "imu-maplab.yaml" then Some (mkImu (mkImuSigmas true))
         else None;
     ImuSigmas_loadFromYaml := sigmas;
     getNumHardwareThreads := 4;
     size_t_bits := 64;
     persist_succeeds := fun _ _ _ => true |}.

(** [/maps/loc] holds a localization summary map with 12 landmarks. *)
Definition world_summary_map : Env :=
  world_with_maps
    (fun folder =>
       if folder =? "/maps/loc" then Some (mkSummaryMap 12) else None)
    (fun _ => None) (fun _ => None).

(** [/maps/loc] holds a full VI map without any well-constrained landmark. *)
Definition world_poor_vi_map : Env :=
  world_with_maps (fun _ => None)
    (fun folder => if folder =? "/maps/loc" then Some 0%N else None)
    (fun _ => None).

(** [rovio.yaml] holds valid sigmas for ROVIO. *)
Definition world_rovio_sigmas : Env :=
  world_with_maps (fun _ => None) (fun _ => None)
    (fun path => if path =? "rovio.yaml" then Some (mkImuSigmas true) else None).

(** [--external_imu_parameters_rovio=rovio.yaml]. *)
Definition flags_rovio_sigmas : Flags :=
  mkFlags "" "ncamera.yaml" "imu-maplab.yaml" "rovio.yaml" "" false false true
    false "rostopic" "" false false.

(** The process after the constructor was given the parameters [ps], and
    after the calls [ms] were made on the object next. *)
Definition after_ctor_with (env : Env) (ps : ParamServer) (g : Flags) : State :=
  final_state (RovioliApp_ctor env ps (process_start g)).

Definition after_calls (env : Env) (g : Flags) (ms : list method) : State :=
  final_state (invoke_all env ms (after_ctor env g)).

(** ** More vocabulary *)

(** What holds of the object between any two calls: the node exists exactly
    when [initialized_] is set; then the message flow exists as well and the
    node was given the save folder the object holds; before that the save
    folder is empty. *)
Definition object_invariant (s : State) : Prop :=
  match rovio_localization_node_ (this s) with
  | Some n =>
      initialized_ (this s) = true
      /\ message_flow_ (this s) <> None
      /\ node_save_map_folder n = save_map_folder_ (this s)
  | None =>
      initialized_ (this s) = false /\ save_map_folder_ (this s) = ""
  end.

(** The events of the fall-back of lines 148-159. *)
Definition is_fallback (e : event) : bool :=
  match e with
  | Log WARNING | VIMapLoad _ _ | SummaryMapCreate => true
  | _ => false
  end.

(** An observation on which the wait loop sleeps and goes on. *)
Definition keeps_waiting (poll : bool * bool) : bool :=
  fst poll && negb (snd poll).

(** * Properties *)

(** ** The allocation loop *)

Section AllocationFacts.
Variable env : Env.

Lemma taken_without_overwrite (p : string) :
  taken env false p = exists_on_fs env p.
Proof. reflexivity. Qed.

Lemma taken_with_overwrite (p : string) :
  taken env true p = fileExists env p.
Proof. unfold taken. simpl. apply orb_false_r. Qed.

Lemma allocate_loop_free (fuel : nat) (requested : string) (overwrite : bool)
    (candidate : string) (counter : N) :
  taken env overwrite candidate = false ->
  allocate_loop env (S fuel) requested overwrite candidate counter
  = Some candidate.
Proof. intros Hfree. simpl. now rewrite Hfree. Qed.

Lemma allocate_loop_taken (fuel : nat) (requested : string) (overwrite : bool)
    (candidate : string) (counter : N) :
  taken env overwrite candidate = true ->
  allocate_loop env (S fuel) requested overwrite candidate counter
  = allocate_loop env fuel requested overwrite (suffixed requested counter)
      (size_t_succ (size_t_bits env) counter).
Proof. intros Htaken. simpl. now rewrite Htaken. Qed.

Lemma size_t_succ_in_range (bits counter : N) :
  (counter + 1 < 2 ^ bits)%N -> size_t_succ bits counter = (counter + 1)%N.
Proof. intros Hlt. unfold size_t_succ. now apply N.mod_small. Qed.

(** From a taken candidate and counter [c], the loop walks the suffixes
    [c], [c+1], ... and stops at the first one that is free, as long as the
    counter does not wrap before. *)
Lemma allocate_loop_walk (overwrite : bool) (requested : string) (k : nat) :
  forall (fuel : nat) (candidate : string) (c : N),
    taken env overwrite candidate = true ->
    (forall i : N, (i < N.of_nat k)%N ->
       taken env overwrite (suffixed requested (c + i)) = true) ->
    taken env overwrite (suffixed requested (c + N.of_nat k)) = false ->
    (c + N.of_nat k < 2 ^ size_t_bits env)%N ->
    (k + 2 <= fuel)%nat ->
    allocate_loop env fuel requested overwrite candidate c
    = Some (suffixed requested (c + N.of_nat k)).
Proof.
  induction k as [|k IH]; intros fuel candidate c Hcand Hbelow Hfree Hrange Hfuel.
  - destruct fuel as [|[|fuel]]; try lia.
    rewrite allocate_loop_taken by assumption.
    change (N.of_nat 0) with 0%N in *. rewrite N.add_0_r in *.
    now apply allocate_loop_free.
  - destruct fuel as [|fuel]; try lia.
    rewrite allocate_loop_taken by assumption.
    rewrite size_t_succ_in_range by lia.
    replace (c + N.of_nat (S k))%N with ((c + 1) + N.of_nat k)%N in * by lia.
    apply IH; try assumption; try lia.
    + specialize (Hbelow 0%N). rewrite N.add_0_r in Hbelow. apply Hbelow. lia.
    + intros i Hi. replace (c + 1 + i)%N with (c + (1 + i))%N by lia.
      apply Hbelow. lia.
Qed.

(** A loop that returns, returns a candidate that passed the test. *)
Lemma allocate_loop_result_free (overwrite : bool) (requested : string)
    (fuel : nat) :
  forall (candidate : string) (c : N) (folder : string),
    allocate_loop env fuel requested overwrite candidate c = Some folder ->
    taken env overwrite folder = false.
Proof.
  induction fuel as [|fuel IH]; intros candidate c folder Hrun; simpl in Hrun.
  - discriminate.
  - destruct (taken env overwrite candidate) eqn:Hc.
    + eapply IH; eassumption.
    + now inversion Hrun; subst.
Qed.

Lemma allocate_empty (fuel : nat) (overwrite : bool) :
  allocate env fuel "" overwrite = Some "".
Proof. reflexivity. Qed.

(** C1, as amended: with overwrite allowed the allocation resolves to the
    requested path [p] itself exactly when [p] is not an existing regular
    file; whether [p] exists as a directory does not matter, and a single
    test of the loop condition is enough.  The empty path names no file. *)
Theorem allocate_overwrite_keeps_path (p : string) (fuel : nat) :
  fileExists env "" = false ->
  (0 < fuel)%nat ->
  allocate env fuel p true = Some p <-> fileExists env p = false.
Proof.
  intros Hempty Hfuel. unfold allocate. destruct p as [|c rest].
  - cbn. now split.
  - cbn [empty negb]. split.
    + intros Hrun. apply allocate_loop_result_free in Hrun.
      now rewrite taken_with_overwrite in Hrun.
    + intros Hfile. destruct fuel as [|fuel]; [lia|].
      apply allocate_loop_free. now rewrite taken_with_overwrite.
Qed.

(** C3: when the requested path [p] exists and overwrite is not allowed, the
    allocation returns [p_n] for the smallest [n] whose [p_n] does not exist
    (every [p_m] with [m < n] exists), and that result differs from [p] and
    from every existing path.  [n] is within the range of the [size_t]
    counter, and the empty path names no file system entry. *)
Theorem allocate_smallest_free_suffix (p : string) (n : N) (fuel : nat) :
  exists_on_fs env "" = false ->
  exists_on_fs env p = true ->
  (forall m : N, (m < n)%N -> exists_on_fs env (suffixed p m) = true) ->
  exists_on_fs env (suffixed p n) = false ->
  (n < 2 ^ size_t_bits env)%N ->
  (N.to_nat n + 2 <= fuel)%nat ->
  allocate env fuel p false = Some (suffixed p n)
  /\ suffixed p n <> p
  /\ (forall q : string, exists_on_fs env q = true -> suffixed p n <> q).
Proof.
  intros Hempty Hp Hbelow Hfree Hrange Hfuel.
  assert (Hdistinct : forall q, exists_on_fs env q = true -> suffixed p n <> q).
  { intros q Hq Heq. rewrite Heq in Hfree. congruence. }
  split; [|split; [now apply Hdistinct | exact Hdistinct]].
  assert (Hne : empty p = false).
  { destruct p; [congruence | reflexivity]. }
  unfold allocate. rewrite Hne. simpl.
  replace n with (0 + N.of_nat (N.to_nat n))%N by lia.
  apply allocate_loop_walk.
  - exact Hp.
  - intros i Hi. rewrite taken_without_overwrite. apply Hbelow. lia.
  - rewrite taken_without_overwrite.
    replace (0 + N.of_nat (N.to_nat n))%N with n by lia. exact Hfree.
  - lia.
  - exact Hfuel.
Qed.

End AllocationFacts.

(** ** Reasoning in the monad *)

Lemma bind_Returned {A B : Type} (m : M A) (k : A -> M B) (s s' : State)
    (b : B) :
  bind m k s = Returned b s' ->
  exists a s1, m s = Returned a s1 /\ k a s1 = Returned b s'.
Proof.
  unfold bind. destruct (m s) as [a s1|s1|s1]; intros H; try discriminate.
  now exists a, s1.
Qed.

Lemma bind_run {A B : Type} (m : M A) (k : A -> M B) (s s1 : State) (a : A) :
  m s = Returned a s1 -> bind m k s = k a s1.
Proof. intros H. unfold bind. now rewrite H. Qed.

Lemma stable_bind {A B : Type} (P : State -> Prop) (m : M A) (k : A -> M B) :
  stable P m -> (forall a, stable P (k a)) -> stable P (bind m k).
Proof.
  intros Hm Hk s Hs. unfold bind. specialize (Hm s Hs).
  destruct (m s) as [a s1|s1|s1]; simpl in *.
  - now apply Hk.
  - exact Hm.
  - exact Hm.
Qed.

(** Walks a computation down to its primitive steps, where [leaf] has to
    show that the property survives one step. *)
Ltac stable_walk leaf :=
  lazymatch goal with
  | |- stable _ (bind _ _) =>
      apply stable_bind; [stable_walk leaf | intros ?; stable_walk leaf]
  | |- stable _ (CHECK _) => unfold CHECK; stable_walk leaf
  | |- stable _ (CHECK_ptr _) => unfold CHECK_ptr; stable_walk leaf
  | |- stable _ (load _ _) => unfold load; stable_walk leaf
  | |- stable _ deref_node => unfold deref_node; stable_walk leaf
  | |- stable _ deref_flow => unfold deref_flow; stable_walk leaf
  | |- stable _ (match ?x with _ => _ end) => destruct x; stable_walk leaf
  | |- stable _ _ => let s := fresh "s" in intros s ?; cbn; leaf
  end.

Lemma grown_by_refl (Q : event -> Prop) (s : State) : grown_by Q (trace s) s.
Proof. exists []. split; [now rewrite app_nil_r | constructor]. Qed.

Lemma grown_by_snoc (Q : event -> Prop) (t0 : list event) (s s' : State)
    (e : event) :
  Q e -> trace s' = trace s ++ [e] -> grown_by Q t0 s -> grown_by Q t0 s'.
Proof.
  intros He Ht [new [H Hnew]]. exists (new ++ [e]). split.
  - rewrite Ht, H. now rewrite app_assoc.
  - apply Forall_app. split; [exact Hnew | now constructor].
Qed.

Lemma grown_by_same (Q : event -> Prop) (t0 : list event) (s s' : State) :
  trace s' = trace s -> grown_by Q t0 s -> grown_by Q t0 s'.
Proof. intros Ht [new [H Hnew]]. exists new. now rewrite Ht. Qed.

Lemma grown_by_weaken (Q Q' : event -> Prop) (t0 : list event) (s : State) :
  (forall e, Q e -> Q' e) -> grown_by Q t0 s -> grown_by Q' t0 s.
Proof.
  intros Himp [new [H Hnew]]. exists new. split; [exact H|].
  eapply Forall_impl; eassumption.
Qed.

Lemma grown_by_trans (Q : event -> Prop) (t0 : list event) (s1 s : State) :
  grown_by Q t0 s1 -> grown_by Q (trace s1) s -> grown_by Q t0 s.
Proof.
  intros [n1 [H1 F1]] [n2 [H2 F2]]. exists (n1 ++ n2). split.
  - rewrite H2, H1. now rewrite app_assoc.
  - apply Forall_app. now split.
Qed.

(** One primitive step keeps the trace or adds one event to it. *)
Ltac grown_leaf :=
  first
    [ eapply grown_by_same; [ | eassumption]; reflexivity
    | eapply grown_by_snoc; [ | | eassumption]; [ | reflexivity];
      cbn; auto ].

Section AppFacts.
Variable env : Env.

(** *** The flags are written by the constructor only *)

Lemma init_keeps_FLAGS (g : Flags) (fuel : nat) :
  stable (fun s => FLAGS s = g) (init env fuel).
Proof.
  unfold init, init_localization_map, init_calibration.
  stable_walk ltac:(assumption).
Qed.

Lemma invoke_keeps_FLAGS (g : Flags) (m : method) :
  stable (fun s => FLAGS s = g) (invoke env m).
Proof.
  destruct m; cbn [invoke]; try apply stable_bind; intros;
    try apply init_keeps_FLAGS;
    unfold run, saveMapCallback, saveMap, shouldExit, shutdown;
    stable_walk ltac:(assumption).
Qed.

Lemma invoke_all_keeps_FLAGS (g : Flags) (ms : list method) :
  stable (fun s => FLAGS s = g) (invoke_all env ms).
Proof.
  induction ms as [|m ms IH]; cbn [invoke_all].
  - intros s Hs. exact Hs.
  - apply stable_bind; [apply invoke_keeps_FLAGS | intros _; exact IH].
Qed.

(** *** What the loading part of [init] leaves alone *)

Lemma init_localization_map_frame (s0 : State) :
  stable (fun s => same_but_map s0 s
                   /\ grown_by (fun e => is_load_or_log e = true) (trace s0) s)
    (init_localization_map env).
Proof.
  unfold init_localization_map.
  stable_walk ltac:(
    match goal with
    | H : same_but_map _ _ /\ _ |- _ => destruct H as [(? & ?) ?]
    end;
    split; [split; assumption | grown_leaf]).
Qed.

Lemma init_calibration_frame (s0 : State) :
  stable (fun s => same_object s0 s
                   /\ grown_by (fun e => is_load_or_log e = true) (trace s0) s)
    (init_calibration env).
Proof.
  unfold init_calibration.
  stable_walk ltac:(
    match goal with
    | H : same_object _ _ /\ _ |- _ => destruct H as [(? & ?) ?]
    end;
    split; [split; assumption | grown_leaf]).
Qed.

Lemma same_but_map_refl (s : State) : same_but_map s s.
Proof. now split. Qed.

Lemma same_object_refl (s : State) : same_object s s.
Proof. now split. Qed.

Lemma same_object_trans (s0 s1 s2 : State) :
  same_object s0 s1 -> same_object s1 s2 -> same_object s0 s2.
Proof. intros [? ?] [? ?]. split; congruence. Qed.

Lemma same_but_map_fields (s0 s : State) :
  same_but_map s0 s ->
  initialized_ (this s) = initialized_ (this s0)
  /\ save_map_folder_ (this s) = save_map_folder_ (this s0)
  /\ rovioli_spinner_ (this s) = rovioli_spinner_ (this s0)
  /\ message_flow_ (this s) = message_flow_ (this s0)
  /\ rovio_localization_node_ (this s) = rovio_localization_node_ (this s0).
Proof.
  intros [_ H]. unfold set_localization_map_ in H. now inversion H.
Qed.

(** *** What a call of [init] that returns has done *)

Lemma init_Returned (fuel : nat) (s s' : State) (b : bool) :
  init env fuel s = Returned b s' ->
  exists s1 s2 camera imu sigmas,
    init_localization_map env s = Returned tt s1
    /\ init_calibration env s1 = Returned (camera, imu, sigmas) s2
    /\ same_but_map s s2
    /\ this s2 = this s1
    /\ grown_by (fun e => is_load_or_log e = true) (trace s) s2
    /\ if FLAGS_map_builder_save_image_as_resources (FLAGS s)
          && empty (FLAGS_save_map_folder (FLAGS s))
       then b = false
            /\ s' = mkState (FLAGS s2) (this s2) (ros_shutdown_requested s2)
                      (trace s2 ++ [Log ERROR])
       else b = true
            /\ exists folder,
                 allocate env fuel (FLAGS_save_map_folder (FLAGS s))
                   (FLAGS_overwrite_existing_map (FLAGS s)) = Some folder
                 /\ s' = mkState (FLAGS s2)
                           (mkRovioliApp true folder
                              (rovioli_spinner_ (this s2))
                              (Some (mkMessageFlow (getNumHardwareThreads env)))
                              (localization_map_ (this s2))
                              (Some (mkRovioliNode camera imu sigmas folder
                                       (localization_map_ (this s2)))))
                           (ros_shutdown_requested s2)
                           (trace s2
                            ++ [MessageFlowCreate (getNumHardwareThreads env);
                                NodeConstruct folder]).
Proof.
  intros Hinit. unfold init in Hinit.
  apply bind_Returned in Hinit as ([] & s1 & Hloc & Hinit).
  apply bind_Returned in Hinit as ([[camera imu] sigmas] & s2 & Hcal & Hinit).
  assert (Hframe1 := init_localization_map_frame s s).
  assert (Hframe2 := init_calibration_frame s1 s1).
  unfold stable in Hframe1, Hframe2.
  rewrite Hloc in Hframe1. rewrite Hcal in Hframe2. simpl in Hframe1, Hframe2.
  destruct Hframe1 as [[HF1 Hthis1] Hgrown1].
  { split; [apply same_but_map_refl | apply grown_by_refl]. }
  destruct Hframe2 as [[HF2 Hthis2] Hgrown2].
  { split; [apply same_object_refl | apply grown_by_refl]. }
  exists s1, s2, camera, imu, sigmas.
  assert (HF : FLAGS s2 = FLAGS s) by congruence.
  split; [exact Hloc|]. split; [exact Hcal|].
  split; [split; congruence|]. split; [exact Hthis2|].
  split; [eapply grown_by_trans; eassumption|].
  rewrite <- HF.
  unfold bind, get_FLAGS in Hinit.
  destruct (FLAGS_map_builder_save_image_as_resources (FLAGS s2)
            && empty (FLAGS_save_map_folder (FLAGS s2))).
  - cbn in Hinit. inversion Hinit; subst. now split.
  - destruct (allocate env fuel (FLAGS_save_map_folder (FLAGS s2))
                (FLAGS_overwrite_existing_map (FLAGS s2))) as [folder|];
      cbn in Hinit; [|discriminate].
    inversion Hinit; subst. split; [reflexivity|].
    exists folder. split; [reflexivity|].
    now rewrite <- app_assoc.
Qed.

(** *** Calls other than [init] *)

(** On an object whose node and message flow exist, every member function
    other than [init] returns, touches nothing but the trace, and asks the
    node to persist with the stored folder and the current flags only. *)
Lemma invoke_after_init (m : method) (s : State) (n : RovioliNode)
    (f : MessageFlow) :
  is_init m = false ->
  rovio_localization_node_ (this s) = Some n ->
  message_flow_ (this s) = Some f ->
  exists new,
    invoke env m s
    = Returned tt (mkState (FLAGS s) (this s) (ros_shutdown_requested s)
                     (trace s ++ new))
    /\ Forall (saves_with (save_map_folder_ (this s))
                 (FLAGS_overwrite_existing_map (FLAGS s))
                 (FLAGS_optimize_map_to_localization_map (FLAGS s))) new.
Proof.
  intros Hm Hn Hf. destruct s as [g a r t]. simpl in *.
  destruct m; try discriminate; cbn [invoke].
  - (* run *)
    unfold run, bind, get_this, deref_node. cbn.
    destruct (initialized_ a); cbn.
    + rewrite Hn. cbn. exists [SpinnerStart; NodeStart].
      rewrite <- app_assoc. split; [reflexivity | repeat constructor].
    + exists []. rewrite app_nil_r. split; [reflexivity | constructor].
  - (* saveMap *)
    unfold saveMap, bind, get_this, get_FLAGS, deref_node. cbn.
    destruct (empty (save_map_folder_ a)); cbn.
    + exists []. rewrite app_nil_r. split; [reflexivity | constructor].
    + rewrite Hn. cbn. eexists [_]. split; [reflexivity|].
      repeat constructor.
  - (* saveMapCallback *)
    unfold saveMapCallback, saveMap, bind, get_this, get_FLAGS, deref_node.
    cbn. destruct (empty (save_map_folder_ a)); cbn.
    + exists []. rewrite app_nil_r. split; [reflexivity | constructor].
    + rewrite Hn. cbn. eexists [_]. split; [reflexivity|].
      repeat constructor.
  - (* shouldExit *)
    unfold shouldExit, bind, get_this. cbn. rewrite Hn. cbn.
    exists []. rewrite app_nil_r. split; [reflexivity | constructor].
  - (* shutdown *)
    unfold shutdown, bind, deref_node, deref_flow, get_this. cbn.
    repeat (progress (rewrite ?Hn, ?Hf; cbn)). exists shutdown_events.
    unfold shutdown_events, emit. cbn. rewrite <- !app_assoc.
    split; [reflexivity | repeat constructor].
Qed.

Lemma invoke_all_after_init (ms : list method) :
  forall (s : State) (n : RovioliNode) (f : MessageFlow),
    forallb (fun m => negb (is_init m)) ms = true ->
    rovio_localization_node_ (this s) = Some n ->
    message_flow_ (this s) = Some f ->
    exists new,
      invoke_all env ms s
      = Returned tt (mkState (FLAGS s) (this s) (ros_shutdown_requested s)
                       (trace s ++ new))
      /\ Forall (saves_with (save_map_folder_ (this s))
                   (FLAGS_overwrite_existing_map (FLAGS s))
                   (FLAGS_optimize_map_to_localization_map (FLAGS s))) new.
Proof.
  induction ms as [|m ms IH]; intros s n f Hms Hn Hf.
  - exists []. rewrite app_nil_r. destruct s. split; [reflexivity | constructor].
  - simpl in Hms. apply andb_true_iff in Hms as [Hm Hms].
    apply negb_true_iff in Hm.
    destruct (invoke_after_init m s n f Hm Hn Hf) as (new1 & Hrun1 & Hall1).
    cbn [invoke_all]. rewrite (bind_run _ _ _ _ _ Hrun1).
    destruct (IH (mkState (FLAGS s) (this s) (ros_shutdown_requested s)
                    (trace s ++ new1)) n f Hms Hn Hf)
      as (new2 & Hrun2 & Hall2).
    simpl in Hrun2, Hall2. exists (new1 ++ new2). rewrite app_assoc.
    split; [exact Hrun2 | apply Forall_app; now split].
Qed.

(** [shutdown], whatever the state of the object. *)
Lemma shutdown_Returned (s s' : State) :
  shutdown s = Returned tt s' ->
  rovio_localization_node_ (this s) <> None
  /\ message_flow_ (this s) <> None
  /\ s' = mkState (FLAGS s) (this s) (ros_shutdown_requested s)
            (trace s ++ shutdown_events).
Proof.
  unfold shutdown, bind, deref_node, deref_flow, get_this. cbn.
  destruct (rovio_localization_node_ (this s)); cbn; [|discriminate].
  destruct (message_flow_ (this s)) eqn:Hf; cbn; [|discriminate].
  repeat (progress (rewrite ?Hf; cbn)). unfold emit. cbn.
  intros H. inversion H. unfold shutdown_events. rewrite <- !app_assoc.
  repeat split; discriminate.
Qed.

(** [saveMap], whatever the state of the object. *)
Lemma saveMap_empty (s : State) :
  save_map_folder_ (this s) = "" -> saveMap env s = Returned false s.
Proof.
  intros H. unfold saveMap, bind, get_this. cbn. now rewrite H.
Qed.

Lemma saveMap_nonempty (s : State) (n : RovioliNode) :
  save_map_folder_ (this s) <> "" ->
  rovio_localization_node_ (this s) = Some n ->
  saveMap env s
  = Returned true
      (mkState (FLAGS s) (this s) (ros_shutdown_requested s)
         (trace s
          ++ [NodeSaveMap (save_map_folder_ (this s))
                (FLAGS_overwrite_existing_map (FLAGS s))
                (FLAGS_optimize_map_to_localization_map (FLAGS s))
                (persist_succeeds env (save_map_folder_ (this s))
                   (FLAGS_overwrite_existing_map (FLAGS s))
                   (FLAGS_optimize_map_to_localization_map (FLAGS s)))])).
Proof.
  intros Hne Hn. unfold saveMap, bind, get_this, get_FLAGS, deref_node. cbn.
  destruct (save_map_folder_ (this s)); [congruence|]. cbn.
  now rewrite Hn.
Qed.

Lemma invoke_frame (s0 : State) (m : method) :
  is_init m = false -> stable (same_object s0) (invoke env m).
Proof.
  intros Hm. destruct m; try discriminate; cbn [invoke];
    unfold run, saveMapCallback, saveMap, shouldExit, shutdown;
    stable_walk ltac:(assumption).
Qed.

(** A call that returns either was a call of [init], or left the flags and
    the object as they were. *)
Lemma invoke_Returned (m : method) (s s' : State) :
  invoke env m s = Returned tt s' ->
  same_object s s' \/ exists fuel b, init env fuel s = Returned b s'.
Proof.
  intros Hrun. destruct (is_init m) eqn:Hm.
  - right. destruct m; try discriminate. cbn [invoke] in Hrun.
    apply bind_Returned in Hrun as (b & s1 & Hinit & Hret).
    inversion Hret; subst. now exists fuel, b.
  - left. assert (H := invoke_frame s m Hm s (same_object_refl s)).
    now rewrite Hrun in H.
Qed.

(** Induction over the calls a client makes. *)
Lemma invoke_all_invariant (I : State -> Prop) :
  (forall s s', I s -> same_object s s' -> I s') ->
  (forall fuel b s s', I s -> init env fuel s = Returned b s' -> I s') ->
  forall (ms : list method) (s s' : State),
    I s -> invoke_all env ms s = Returned tt s' -> I s'.
Proof.
  intros Hsame Hinit. induction ms as [|m ms IH]; intros s s' Hs Hrun.
  - inversion Hrun; subst. exact Hs.
  - cbn [invoke_all] in Hrun.
    apply bind_Returned in Hrun as ([] & s1 & Hm & Hrest).
    apply (IH s1 s'); [|exact Hrest].
    destruct (invoke_Returned m s s1 Hm) as [Hobj | (fuel & b & Hi)].
    + now apply (Hsame s s1).
    + now apply (Hinit fuel b s s1).
Qed.

(** The constructor: a fresh object, the flags overridden. *)
Lemma RovioliApp_ctor_Returned (ps : ParamServer) (s0 s1 : State) :
  RovioliApp_ctor env ps s0 = Returned tt s1 ->
  this s1 = mkRovioliApp false "" (getNumHardwareThreads env) None None None
  /\ grown_by (fun e => is_start e = false) (trace s0) s1.
Proof.
  intros H. split.
  - revert H. unfold RovioliApp_ctor, bind, modify_this, get_FLAGS, put_FLAGS.
    cbn.
    repeat match goal with
           | |- context [if ?b then _ else _] => destruct b
           end;
      cbn; intros H; inversion H; reflexivity.
  - assert (Hst : stable (grown_by (fun e => is_start e = false) (trace s0))
                    (RovioliApp_ctor env ps)).
    { unfold RovioliApp_ctor. stable_walk ltac:(grown_leaf). }
    specialize (Hst s0 (grown_by_refl _ s0)). now rewrite H in Hst.
Qed.

(** *** An empty save folder stays empty *)

Lemma empty_folder_invariant (ms : list method) (s s' : State) :
  FLAGS_save_map_folder (FLAGS s) = "" ->
  save_map_folder_ (this s) = "" ->
  invoke_all env ms s = Returned tt s' ->
  FLAGS_save_map_folder (FLAGS s') = "" /\ save_map_folder_ (this s') = "".
Proof.
  intros HF Hf Hrun.
  apply (invoke_all_invariant
           (fun s => FLAGS_save_map_folder (FLAGS s) = ""
                     /\ save_map_folder_ (this s) = "")) with (ms := ms) (s := s);
    [| |now split|exact Hrun].
  - intros s1 s2 [H1 H2] [HFL Hthis]. rewrite HFL, Hthis. now split.
  - intros fuel b s1 s2 [H1 H2] Hinit.
    apply init_Returned in Hinit
      as (sa & sb & cam & imu & sig & _ & _ & Hsame & _ & _ & Hcase).
    destruct (same_but_map_fields _ _ Hsame) as (_ & Hfold & _).
    destruct Hsame as [HFL _].
    destruct (FLAGS_map_builder_save_image_as_resources (FLAGS s1)
              && empty (FLAGS_save_map_folder (FLAGS s1))).
    + destruct Hcase as [_ ->]. cbn. split; congruence.
    + destruct Hcase as [_ (folder & Halloc & ->)]. cbn.
      rewrite H1 in Halloc. cbn in Halloc. split; congruence.
Qed.

(** C4: when the configured save folder is empty, [saveMap] returns false
    and leaves the whole state, trace included, as it was: nothing is
    written and the node is not called; the service callback does the same.
    This holds in every state the object can be in after its construction,
    whatever member functions were called before. *)
Theorem saveMap_refused_without_folder (ps : ParamServer) (ms : list method)
    (s0 s1 s : State) :
  RovioliApp_ctor env ps s0 = Returned tt s1 ->
  FLAGS_save_map_folder (FLAGS s1) = "" ->
  invoke_all env ms s1 = Returned tt s ->
  saveMap env s = Returned false s
  /\ saveMapCallback env s = Returned false s.
Proof.
  intros Hctor Hflag Hcalls.
  destruct (RovioliApp_ctor_Returned ps s0 s1 Hctor) as [Hthis _].
  assert (Hfolder : save_map_folder_ (this s1) = "") by now rewrite Hthis.
  destruct (empty_folder_invariant ms s1 s Hflag Hfolder Hcalls) as [_ Hs].
  unfold saveMapCallback. split; now apply saveMap_empty.
Qed.

(** *** A save folder implies a node *)

Lemma folder_implies_node (ps : ParamServer) (ms : list method)
    (s0 s1 s : State) :
  RovioliApp_ctor env ps s0 = Returned tt s1 ->
  invoke_all env ms s1 = Returned tt s ->
  save_map_folder_ (this s) <> "" ->
  exists n, rovio_localization_node_ (this s) = Some n.
Proof.
  intros Hctor Hcalls.
  destruct (RovioliApp_ctor_Returned ps s0 s1 Hctor) as [Hthis _].
  apply (invoke_all_invariant
           (fun s => save_map_folder_ (this s) <> "" ->
                     exists n, rovio_localization_node_ (this s) = Some n))
    with (ms := ms) (s := s1); [| | |exact Hcalls].
  - intros sa sb H [_ Hobj]. now rewrite Hobj.
  - intros fuel b sa sb H Hinit.
    apply init_Returned in Hinit
      as (sx & sy & cam & imu & sig & _ & _ & Hsame & _ & _ & Hcase).
    destruct (same_but_map_fields _ _ Hsame) as (_ & Hfold & _ & _ & Hnode).
    destruct (FLAGS_map_builder_save_image_as_resources (FLAGS sa)
              && empty (FLAGS_save_map_folder (FLAGS sa))).
    + destruct Hcase as [_ ->]. cbn. rewrite Hfold, Hnode. exact H.
    + destruct Hcase as [_ (folder & _ & ->)]. cbn. intros _. eauto.
  - rewrite Hthis. cbn. congruence.
Qed.

(** C2, as amended: with a non-empty save folder [saveMap] and the service
    callback ask the node to persist and return true, whether or not the
    persist operation managed to write: its outcome [written] is visible in
    the trace only. *)
Theorem saveMap_true_whatever_persist (ps : ParamServer) (ms : list method)
    (s0 s1 s : State) :
  RovioliApp_ctor env ps s0 = Returned tt s1 ->
  invoke_all env ms s1 = Returned tt s ->
  save_map_folder_ (this s) <> "" ->
  exists written s',
    saveMap env s = Returned true s'
    /\ saveMapCallback env s = Returned true s'
    /\ trace s'
       = trace s
         ++ [NodeSaveMap (save_map_folder_ (this s))
               (FLAGS_overwrite_existing_map (FLAGS s))
               (FLAGS_optimize_map_to_localization_map (FLAGS s)) written]
    /\ written
       = persist_succeeds env (save_map_folder_ (this s))
           (FLAGS_overwrite_existing_map (FLAGS s))
           (FLAGS_optimize_map_to_localization_map (FLAGS s)).
Proof.
  intros Hctor Hcalls Hne.
  destruct (folder_implies_node ps ms s0 s1 s Hctor Hcalls Hne) as [n Hn].
  eexists. eexists. unfold saveMapCallback.
  rewrite (saveMap_nonempty s n Hne Hn).
  repeat split; reflexivity.
Qed.

(** *** After a successful [init] *)

Lemma constructed_invariant (ms : list method) (s s' : State) :
  constructed s -> invoke_all env ms s = Returned tt s' -> constructed s'.
Proof.
  apply invoke_all_invariant.
  - intros sa sb H [_ Hobj]. unfold constructed in *. now rewrite Hobj.
  - intros fuel b sa sb H Hinit.
    apply init_Returned in Hinit
      as (sx & sy & cam & imu & sig & _ & _ & Hsame & _ & _ & Hcase).
    destruct (same_but_map_fields _ _ Hsame) as (_ & _ & _ & Hflow & Hnode).
    unfold constructed in *.
    destruct (FLAGS_map_builder_save_image_as_resources (FLAGS sa)
              && empty (FLAGS_save_map_folder (FLAGS sa))).
    + destruct Hcase as [_ ->]. cbn. now rewrite Hflow, Hnode.
    + destruct Hcase as [_ (folder & _ & ->)]. cbn. split; discriminate.
Qed.

Lemma init_true_constructed (fuel : nat) (s s' : State) :
  init env fuel s = Returned true s' ->
  constructed s'
  /\ FLAGS s' = FLAGS s
  /\ allocate env fuel (FLAGS_save_map_folder (FLAGS s))
       (FLAGS_overwrite_existing_map (FLAGS s))
     = Some (save_map_folder_ (this s'))
  /\ exists n, rovio_localization_node_ (this s') = Some n
               /\ node_save_map_folder n = save_map_folder_ (this s')
               /\ node_localization_map n = localization_map_ (this s').
Proof.
  intros Hinit.
  apply init_Returned in Hinit
    as (sx & sy & cam & imu & sig & _ & _ & [HF _] & _ & _ & Hcase).
  destruct (FLAGS_map_builder_save_image_as_resources (FLAGS s)
            && empty (FLAGS_save_map_folder (FLAGS s))).
  - destruct Hcase as [Hb _]. discriminate.
  - destruct Hcase as [_ (folder & Halloc & ->)]. cbn.
    split; [split; discriminate|]. split; [exact HF|]. split; [exact Halloc|].
    eexists. split; [reflexivity|]. now split.
Qed.

Lemma shutdown_constructed (s : State) :
  constructed s ->
  shutdown s
  = Returned tt (mkState (FLAGS s) (this s) (ros_shutdown_requested s)
                   (trace s ++ shutdown_events)).
Proof.
  intros [Hn Hf].
  destruct (rovio_localization_node_ (this s)) as [n|] eqn:En; [|congruence].
  destruct (message_flow_ (this s)) as [f|] eqn:Ef; [|congruence].
  destruct (invoke_after_init call_shutdown s n f eq_refl En Ef)
    as (new & Hrun & _).
  cbn [invoke] in Hrun.
  destruct (shutdown s) as [[] s'| |] eqn:Hs; try discriminate.
  apply shutdown_Returned in Hs as (_ & _ & ->). reflexivity.
Qed.

(** C6: once [init] has succeeded, and whatever was called since, [shutdown]
    returns, and by then it has stopped the node first, shut the message
    flow down next and waited for it to be idle last; it changes nothing
    else. *)
Theorem shutdown_stops_node_then_flushes (fuel : nat) (ms : list method)
    (s0 s1 s : State) :
  init env fuel s0 = Returned true s1 ->
  invoke_all env ms s1 = Returned tt s ->
  exists s',
    shutdown s = Returned tt s'
    /\ trace s'
       = trace s ++ [NodeShutdown; MessageFlowShutdown; MessageFlowWaitUntilIdle]
    /\ same_object s s'.
Proof.
  intros Hinit Hcalls.
  destruct (init_true_constructed fuel s0 s1 Hinit) as [Hc _].
  assert (Hs := constructed_invariant ms s1 s Hc Hcalls).
  eexists. split; [now apply shutdown_constructed|].
  split; [reflexivity | now split].
Qed.

(** C10: after [init] has succeeded, any sequence of calls of the other
    member functions returns and leaves the flags and the object as [init]
    left them; the save folder is the one allocated by [init], the node was
    constructed with the same folder, and every persist request made on the
    way carries that folder and the overwrite and optimize flags of
    initialization time. *)
Theorem configuration_fixed_after_init (fuel : nat) (ms : list method)
    (s0 s1 : State) :
  init env fuel s0 = Returned true s1 ->
  forallb (fun m => negb (is_init m)) ms = true ->
  exists s,
    invoke_all env ms s1 = Returned tt s
    /\ FLAGS s = FLAGS s0
    /\ this s = this s1
    /\ allocate env fuel (FLAGS_save_map_folder (FLAGS s0))
         (FLAGS_overwrite_existing_map (FLAGS s0))
       = Some (save_map_folder_ (this s))
    /\ (exists n, rovio_localization_node_ (this s) = Some n
                  /\ node_save_map_folder n = save_map_folder_ (this s))
    /\ grown_by
         (saves_with (save_map_folder_ (this s1))
            (FLAGS_overwrite_existing_map (FLAGS s0))
            (FLAGS_optimize_map_to_localization_map (FLAGS s0)))
         (trace s1) s.
Proof.
  intros Hinit Hms.
  destruct (init_true_constructed fuel s0 s1 Hinit)
    as ([Hn Hf] & HF & Halloc & n & En & Hnf & _).
  destruct (message_flow_ (this s1)) as [f|] eqn:Ef; [|congruence].
  destruct (invoke_all_after_init ms s1 n f Hms En Ef) as (new & Hrun & Hall).
  eexists. split; [exact Hrun|]. cbn.
  split; [exact HF|]. split; [reflexivity|]. split; [exact Halloc|].
  split; [now exists n|].
  exists new. split; [reflexivity|]. now rewrite <- HF.
Qed.

(** *** [main] *)

Lemma stable_Returned {A : Type} (P : State -> Prop) (m : M A) (s s' : State)
    (a : A) :
  stable P m -> P s -> m s = Returned a s' -> P s'.
Proof. intros Hst Hs Hrun. specialize (Hst s Hs). now rewrite Hrun in Hst. Qed.

Lemma wait_loop_frame (s0 : State) (polls : list (bool * bool)) :
  stable (fun s => same_object s0 s
                   /\ ros_shutdown_requested s = ros_shutdown_requested s0
                   /\ grown_by (fun e => e = Sleep) (trace s0) s)
    (wait_loop polls).
Proof.
  induction polls as [|[up eod] rest IH]; cbn [wait_loop].
  - intros s Hs. exact Hs.
  - apply stable_bind; [intros s Hs; exact Hs|]. intros ok.
    destruct (ok && negb eod).
    + apply stable_bind; [|intros _; exact IH].
      intros s (Hobj & Hros & Hgrown). cbn.
      split; [exact Hobj|]. split; [exact Hros | grown_leaf].
    + intros s Hs. exact Hs.
Qed.

(** The loop is left at the first observation that shows ROS down or the
    data source exhausted, after one sleep for each earlier observation. *)
Lemma wait_loop_Returned (polls : list (bool * bool)) :
  forall s s',
    wait_loop polls s = Returned tt s' ->
    exists k up eod,
      nth_error polls k = Some (up, eod)
      /\ up && negb (ros_shutdown_requested s) && negb eod = false
      /\ s' = mkState (FLAGS s) (this s) (ros_shutdown_requested s)
                (trace s ++ repeat Sleep k).
Proof.
  induction polls as [|[up eod] rest IH]; intros s s' Hrun;
    cbn [wait_loop] in Hrun.
  - discriminate.
  - unfold bind, ros_ok in Hrun.
    destruct (up && negb (ros_shutdown_requested s) && negb eod) eqn:Hc.
    + cbn in Hrun. apply IH in Hrun as (k & up' & eod' & Hk & Hexit & ->).
      exists (S k), up', eod'. cbn. split; [exact Hk|]. split; [exact Hexit|].
      now rewrite <- app_assoc.
    + inversion Hrun; subst. exists 0%nat, up, eod. cbn. rewrite app_nil_r.
      destruct s'. repeat split. exact Hc.
Qed.

Lemma fatal_branch_frame (s0 : State) (failed : bool) :
  stable (same_object s0)
    (if failed then emit (RosLog FATAL) ;; ros_shutdown else ret tt).
Proof. stable_walk ltac:(assumption). Qed.

Lemma run_frame (s0 : State) : stable (same_object s0) run.
Proof. unfold run. stable_walk ltac:(assumption). Qed.

Lemma shouldExit_Returned (s s' : State) :
  shouldExit s = Returned tt s' ->
  s' = s /\ rovio_localization_node_ (this s) <> None.
Proof.
  unfold shouldExit, bind, get_this, CHECK.
  destruct (rovio_localization_node_ (this s)); cbn; intros H;
    inversion H; subst. split; [reflexivity | discriminate].
Qed.

(** [main] reaches the end of its wait loop only with a node and a message
    flow: after a failed [init] the CHECK of [shouldExit] ends the process. *)
Lemma main_until_exit_Returned (ps : ParamServer) (fuel : nat)
    (polls : list (bool * bool)) (s0 s_exit : State) :
  main_until_exit env ps fuel polls s0 = Returned tt s_exit ->
  constructed s_exit.
Proof.
  intros H. unfold main_until_exit in H.
  apply bind_Returned in H as ([] & s1 & Hctor & H).
  apply bind_Returned in H as (ok & s2 & Hinit & H).
  apply bind_Returned in H as ([] & s3 & Hb1 & H).
  apply bind_Returned in H as (ok2 & s4 & Hrun & H).
  apply bind_Returned in H as ([] & s5 & Hb2 & H).
  apply bind_Returned in H as ([] & s6 & Hexit & Hloop).
  apply shouldExit_Returned in Hexit as [-> Hnode].
  assert (H23 := stable_Returned _ _ _ _ _ (fatal_branch_frame s2 (negb ok))
                   (same_object_refl s2) Hb1).
  assert (H34 := stable_Returned _ _ _ _ _ (run_frame s3)
                   (same_object_refl s3) Hrun).
  assert (H45 := stable_Returned _ _ _ _ _ (fatal_branch_frame s4 (negb ok2))
                   (same_object_refl s4) Hb2).
  assert (H5e : same_object s5 s_exit).
  { refine (proj1 (stable_Returned _ _ _ _ _ (wait_loop_frame s5 polls) _ Hloop)).
    split; [apply same_object_refl|]. split; [reflexivity | apply grown_by_refl]. }
  assert (H25 : same_object s2 s5).
  { exact (same_object_trans _ _ _ H23 (same_object_trans _ _ _ H34 H45)). }
  assert (H2e : same_object s2 s_exit).
  { exact (same_object_trans _ _ _ H25 H5e). }
  destruct H2e as [_ Hthis]. destruct H25 as [_ Hthis5].
  unfold constructed. rewrite Hthis. rewrite Hthis5 in Hnode.
  destruct (RovioliApp_ctor_Returned ps s0 s1 Hctor) as [Hfresh _].
  apply init_Returned in Hinit
    as (sx & sy & cam & imu & sig & _ & _ & Hsame & _ & _ & Hcase).
  destruct (same_but_map_fields _ _ Hsame) as (_ & _ & _ & _ & Hn).
  destruct (FLAGS_map_builder_save_image_as_resources (FLAGS s1)
            && empty (FLAGS_save_map_folder (FLAGS s1))).
  - destruct Hcase as [_ ->]. cbn in Hnode. rewrite Hn, Hfresh in Hnode.
    now contradiction Hnode.
  - destruct Hcase as [_ (folder & _ & ->)]. cbn. split; discriminate.
Qed.

(** C7: when [main] leaves its wait loop (ROS is no longer ok or the data
    source is exhausted), it runs [shutdown] to its end first, the three
    shutdown events being the next in the trace, and then calls [saveMap]
    exactly when [FLAGS_save_map_on_shutdown] is set; [main] returns 0. *)
Theorem main_shuts_down_before_final_save (ps : ParamServer) (fuel : nat)
    (polls : list (bool * bool)) (s0 s_exit : State) :
  main_until_exit env ps fuel polls s0 = Returned tt s_exit ->
  exists s_down s_end,
    shutdown s_exit = Returned tt s_down
    /\ trace s_down
       = trace s_exit
         ++ [NodeShutdown; MessageFlowShutdown; MessageFlowWaitUntilIdle]
    /\ main env ps fuel polls s0 = Returned 0%Z s_end
    /\ (if FLAGS_save_map_on_shutdown (FLAGS s_exit)
        then exists b, saveMap env s_down = Returned b s_end
        else s_end = s_down)
    /\ trace s_end
       = trace s_down
         ++ (if FLAGS_save_map_on_shutdown (FLAGS s_exit)
                && negb (empty (save_map_folder_ (this s_exit)))
             then [NodeSaveMap (save_map_folder_ (this s_exit))
                     (FLAGS_overwrite_existing_map (FLAGS s_exit))
                     (FLAGS_optimize_map_to_localization_map (FLAGS s_exit))
                     (persist_succeeds env (save_map_folder_ (this s_exit))
                        (FLAGS_overwrite_existing_map (FLAGS s_exit))
                        (FLAGS_optimize_map_to_localization_map
                           (FLAGS s_exit)))]
             else []).
Proof.
  intros Hexit.
  assert (Hc := main_until_exit_Returned ps fuel polls s0 s_exit Hexit).
  assert (Hdown := shutdown_constructed s_exit Hc).
  set (s_down := mkState (FLAGS s_exit) (this s_exit)
                   (ros_shutdown_requested s_exit)
                   (trace s_exit ++ shutdown_events)) in *.
  assert (Hmain :
            main env ps fuel polls s0
            = if FLAGS_save_map_on_shutdown (FLAGS s_exit)
              then match saveMap env s_down with
                   | Returned _ s' => Returned 0%Z s'
                   | Aborted s' => Aborted s'
                   | StillRunning s' => StillRunning s'
                   end
              else Returned 0%Z s_down).
  { unfold main. rewrite (bind_run _ _ _ _ _ Hexit).
    unfold main_on_exit. rewrite (bind_run _ _ _ _ _ Hdown).
    unfold bind, get_FLAGS. cbn [FLAGS s_down].
    destruct (FLAGS_save_map_on_shutdown (FLAGS s_exit)); [|reflexivity].
    now destruct (saveMap env s_down). }
  exists s_down. rewrite Hmain.
  destruct (FLAGS_save_map_on_shutdown (FLAGS s_exit)); cbn [andb].
  - destruct (save_map_folder_ (this s_exit)) as [|c rest] eqn:Hfolder.
    + rewrite (saveMap_empty s_down) by exact Hfolder.
      exists s_down. split; [exact Hdown|]. split; [reflexivity|].
      split; [reflexivity|]. split; [now exists false|].
      cbn. now rewrite app_nil_r.
    + destruct Hc as [Hn _].
      destruct (rovio_localization_node_ (this s_exit)) as [n|] eqn:En;
        [|congruence].
      rewrite (saveMap_nonempty s_down n)
        by (cbn; rewrite ?Hfolder; congruence).
      eexists. split; [exact Hdown|]. split; [reflexivity|].
      split; [reflexivity|]. split; [now exists true|].
      cbn. now rewrite Hfolder.
  - exists s_down. split; [exact Hdown|]. split; [reflexivity|].
    split; [reflexivity|]. split; [reflexivity|].
    cbn. now rewrite app_nil_r.
Qed.

(** *** [init] and its early exits *)

Lemma bind_Aborted {A B : Type} (m : M A) (k : A -> M B) (s s1 : State) :
  m s = Aborted s1 -> bind m k s = Aborted s1.
Proof. intros H. unfold bind. now rewrite H. Qed.

Lemma bind_StillRunning {A B : Type} (m : M A) (k : A -> M B)
    (s s1 : State) :
  m s = StillRunning s1 -> bind m k s = StillRunning s1.
Proof. intros H. unfold bind. now rewrite H. Qed.

Lemma load_or_log_not_construction (e : event) :
  is_load_or_log e = true -> is_construction e = false.
Proof. now destruct e. Qed.

(** With resources requested and no save folder, the test of line 190 ends
    [init] as soon as the loading part is through. *)
Lemma init_error_branch (fuel : nat) (s s1 s2 : State)
    (calib : NCamera * Imu * ImuSigmas) :
  FLAGS_map_builder_save_image_as_resources (FLAGS s) = true ->
  FLAGS_save_map_folder (FLAGS s) = "" ->
  init_localization_map env s = Returned tt s1 ->
  init_calibration env s1 = Returned calib s2 ->
  init env fuel s
  = Returned false
      (mkState (FLAGS s2) (this s2) (ros_shutdown_requested s2)
         (trace s2 ++ [Log ERROR])).
Proof.
  intros Hres Hfolder Hloc Hcal.
  assert (H1 := stable_Returned _ _ _ _ _ (init_localization_map_frame s) 
                  (conj (same_but_map_refl s) (grown_by_refl _ s)) Hloc).
  assert (H2 := stable_Returned _ _ _ _ _ (init_calibration_frame s1)
                  (conj (same_object_refl s1) (grown_by_refl _ s1)) Hcal).
  destruct H1 as [[HF1 _] _]. destruct H2 as [[HF2 _] _].
  unfold init. rewrite (bind_run _ _ _ _ _ Hloc).
  rewrite (bind_run _ _ _ _ _ Hcal).
  destruct calib as [[camera imu] sigmas].
  unfold bind, get_FLAGS.
  replace (FLAGS_map_builder_save_image_as_resources (FLAGS s2)) with true
    by congruence.
  replace (FLAGS_save_map_folder (FLAGS s2)) with "" by congruence.
  reflexivity.
Qed.

(** C8, as amended: with auxiliary-resource persistence requested and no
    save folder, [init] never returns true and never builds the message
    flow or the node, however it ends; and when the loading part that
    precedes the test (localization map, camera calibration, IMU
    parameters) goes through, [init] logs an error and returns false, the
    process staying alive. *)
Theorem init_rejects_resources_without_folder (fuel : nat) (s : State) :
  FLAGS_map_builder_save_image_as_resources (FLAGS s) = true ->
  FLAGS_save_map_folder (FLAGS s) = "" ->
  (forall s', init env fuel s <> Returned true s')
  /\ (message_flow_ (this (final_state (init env fuel s)))
      = message_flow_ (this s)
      /\ rovio_localization_node_ (this (final_state (init env fuel s)))
         = rovio_localization_node_ (this s)
      /\ initialized_ (this (final_state (init env fuel s)))
         = initialized_ (this s)
      /\ grown_by (fun e => is_construction e = false) (trace s)
           (final_state (init env fuel s)))
  /\ (forall s1 s2 calib,
        init_localization_map env s = Returned tt s1 ->
        init_calibration env s1 = Returned calib s2 ->
        init env fuel s
        = Returned false
            (mkState (FLAGS s2) (this s2) (ros_shutdown_requested s2)
               (trace s2 ++ [Log ERROR]))).
Proof.
  intros Hres Hfolder. split; [|split].
  - intros s' Hinit. apply init_Returned in Hinit
      as (s1 & s2 & cam & imu & sig & _ & _ & _ & _ & _ & Hcase).
    rewrite Hres, Hfolder in Hcase. cbn in Hcase. now destruct Hcase.
  - assert (H1 := init_localization_map_frame s s
                    (conj (same_but_map_refl s) (grown_by_refl _ s))).
    cbv beta in H1.
    destruct (init_localization_map env s) as [[] s1|s1|s1] eqn:Hloc;
      cbn [final_state] in H1; destruct H1 as [Hsame1 Hgrown1].
    + assert (H2 := init_calibration_frame s1 s1
                      (conj (same_object_refl s1) (grown_by_refl _ s1))).
      cbv beta in H2.
      assert (Hstop :
                same_but_map s (final_state (init env fuel s))
                /\ grown_by (fun e => is_load_or_log e = true) (trace s)
                     (final_state (init env fuel s))).
      { destruct (init_calibration env s1) as [calib s2|s2|s2] eqn:Hcal;
          cbn [final_state] in H2; destruct H2 as [[HF2 Hthis2] Hgrown2].
        - rewrite (init_error_branch fuel s s1 s2 calib Hres Hfolder Hloc Hcal).
          cbn [final_state]. split.
          + destruct Hsame1 as [HF1 Hobj1]. split; cbn; congruence.
          + eapply grown_by_snoc; [ | reflexivity | ]; [reflexivity|].
            eapply grown_by_trans; eassumption.
        - unfold init. rewrite (bind_run _ _ _ _ _ Hloc).
          rewrite (bind_Aborted _ _ _ _ Hcal). cbn [final_state]. split.
          + destruct Hsame1 as [HF1 Hobj1]. split; congruence.
          + eapply grown_by_trans; eassumption.
        - unfold init. rewrite (bind_run _ _ _ _ _ Hloc).
          rewrite (bind_StillRunning _ _ _ _ Hcal). cbn [final_state]. split.
          + destruct Hsame1 as [HF1 Hobj1]. split; congruence.
          + eapply grown_by_trans; eassumption. }
      destruct Hstop as [Hsame Hgrown].
      destruct (same_but_map_fields _ _ Hsame) as (Hi & _ & _ & Hf & Hn).
      repeat (split; [assumption|]).
      eapply grown_by_weaken; [|exact Hgrown].
      exact load_or_log_not_construction.
    + unfold init. rewrite (bind_Aborted _ _ _ _ Hloc). cbn [final_state].
      destruct (same_but_map_fields _ _ Hsame1) as (Hi & _ & _ & Hf & Hn).
      repeat (split; [assumption|]).
      eapply grown_by_weaken; [|exact Hgrown1].
      exact load_or_log_not_construction.
    + unfold init. rewrite (bind_StillRunning _ _ _ _ Hloc).
      cbn [final_state].
      destruct (same_but_map_fields _ _ Hsame1) as (Hi & _ & _ & Hf & Hn).
      repeat (split; [assumption|]).
      eapply grown_by_weaken; [|exact Hgrown1].
      exact load_or_log_not_construction.
  - intros s1 s2 calib. now apply init_error_branch.
Qed.

(** *** The localization map fallback *)

Lemma init_localization_map_fallback (s : State) (folder : string)
    (vi_map : VIMap) :
  FLAGS_vio_localization_map_folder (FLAGS s) = folder ->
  folder <> "" ->
  LocalizationSummaryMap_loadFromFolder env folder = None ->
  loadMapFromFolder env folder = Some vi_map ->
  let m := createLocalizationSummaryMapForWellConstrainedLandmarks env vi_map in
  let t := trace s ++ [SummaryMapLoad folder false; Log WARNING;
                       VIMapLoad folder true; SummaryMapCreate] in
  init_localization_map env s
  = if (0 <? GLandmarkPosition_cols m)%N
    then Returned tt
           (mkState (FLAGS s) (set_localization_map_ (Some m) (this s))
              (ros_shutdown_requested s) t)
    else Aborted
           (mkState (FLAGS s) (set_localization_map_ (Some m) (this s))
              (ros_shutdown_requested s) (t ++ [Log FATAL])).
Proof.
  intros Hflag Hne Hsummary Hvi m t. subst t m.
  unfold init_localization_map, bind, get_FLAGS. rewrite Hflag.
  destruct folder as [|c rest]; [congruence|]. cbn [empty negb].
  unfold load. rewrite Hsummary, Hvi. cbn.
  destruct (0 <? GLandmarkPosition_cols
                   (createLocalizationSummaryMapForWellConstrainedLandmarks
                      env vi_map))%N; cbn;
    rewrite <- !app_assoc; reflexivity.
Qed.

Lemma init_localization_map_no_map (s : State) (folder : string) :
  FLAGS_vio_localization_map_folder (FLAGS s) = folder ->
  folder <> "" ->
  LocalizationSummaryMap_loadFromFolder env folder = None ->
  loadMapFromFolder env folder = None ->
  init_localization_map env s
  = Aborted
      (mkState (FLAGS s)
         (set_localization_map_ (Some (mkSummaryMap 0)) (this s))
         (ros_shutdown_requested s)
         (trace s ++ [SummaryMapLoad folder false; Log WARNING;
                      VIMapLoad folder false; Log FATAL])).
Proof.
  intros Hflag Hne Hsummary Hvi.
  unfold init_localization_map, bind, get_FLAGS. rewrite Hflag.
  destruct folder as [|c rest]; [congruence|]. cbn [empty negb].
  unfold load. rewrite Hsummary, Hvi. cbn.
  rewrite <- !app_assoc. reflexivity.
Qed.

(** C9: with a localization map folder configured that does not load as a
    summary map, [init] logs a warning and nothing else, loads the folder as
    a full VI map and derives the summary map from it, which is the map the
    node is then given; when the full map does not load either, [init] ends
    the process at its CHECK, and [main] with it, before [run]: nothing is
    started and [initialized_] stays false. *)
Theorem init_falls_back_to_full_map (fuel : nat) (s : State)
    (folder : string) :
  FLAGS_vio_localization_map_folder (FLAGS s) = folder ->
  folder <> "" ->
  LocalizationSummaryMap_loadFromFolder env folder = None ->
  (forall vi_map,
     loadMapFromFolder env folder = Some vi_map ->
     grown_by (fun _ => True)
       (trace s ++ [SummaryMapLoad folder false; Log WARNING;
                    VIMapLoad folder true; SummaryMapCreate])
       (final_state (init env fuel s))
     /\ forall s',
          init env fuel s = Returned true s' ->
          localization_map_ (this s')
          = Some (createLocalizationSummaryMapForWellConstrainedLandmarks
                    env vi_map)
          /\ exists n,
               rovio_localization_node_ (this s') = Some n
               /\ node_localization_map n = localization_map_ (this s'))
  /\ (loadMapFromFolder env folder = None ->
      init env fuel s
      = Aborted
          (mkState (FLAGS s)
             (set_localization_map_ (Some (mkSummaryMap 0)) (this s))
             (ros_shutdown_requested s)
             (trace s ++ [SummaryMapLoad folder false; Log WARNING;
                          VIMapLoad folder false; Log FATAL]))
      /\ forall ps polls s0,
           RovioliApp_ctor env ps s0 = Returned tt s ->
           exists s',
             main env ps fuel polls s0 = Aborted s'
             /\ trace s'
                = trace s ++ [SummaryMapLoad folder false; Log WARNING;
                              VIMapLoad folder false; Log FATAL]
             /\ initialized_ (this s') = false).
Proof.
  intros Hflag Hne Hsummary. split.
  - intros vi_map Hvi.
    assert (Hloc := init_localization_map_fallback s folder vi_map
                      Hflag Hne Hsummary Hvi).
    cbv zeta in Hloc. split.
    + unfold init.
      destruct (0 <? GLandmarkPosition_cols
                       (createLocalizationSummaryMapForWellConstrainedLandmarks
                          env vi_map))%N.
      * rewrite (bind_run _ _ _ _ _ Hloc).
        match goal with
        | |- grown_by _ ?t (final_state (?m ?s1)) =>
            assert (Hst : stable (grown_by (fun _ => True) t) m)
        end.
        { unfold init_calibration. stable_walk ltac:(grown_leaf). }
        apply Hst. exists []. split; [now rewrite app_nil_r | constructor].
      * rewrite (bind_Aborted _ _ _ _ Hloc). cbn [final_state].
        exists [Log FATAL]. split; [reflexivity | repeat constructor].
    + intros s' Hinit.
      destruct (init_true_constructed fuel s s' Hinit)
        as (_ & _ & _ & n & Hn & _ & Hmap).
      apply init_Returned in Hinit
        as (s1 & s2 & cam & imu & sig & Hloc' & _ & _ & Hthis & _ & Hcase).
      rewrite Hloc in Hloc'.
      destruct (0 <? GLandmarkPosition_cols
                       (createLocalizationSummaryMapForWellConstrainedLandmarks
                          env vi_map))%N; [|discriminate].
      inversion Hloc'; subst s1. clear Hloc'.
      split; [|now exists n].
      destruct (FLAGS_map_builder_save_image_as_resources (FLAGS s)
                && empty (FLAGS_save_map_folder (FLAGS s))).
      * destruct Hcase as [Hb _]. discriminate.
      * destruct Hcase as [_ (f & _ & ->)]. cbn. now rewrite Hthis.
  - intros Hvi.
    assert (Hloc := init_localization_map_no_map s
                      (FLAGS_vio_localization_map_folder (FLAGS s))
                      eq_refl ltac:(congruence) ltac:(congruence)
                      ltac:(congruence)).
    rewrite Hflag in Hloc.
    assert (Hinit : init env fuel s = Aborted
              (mkState (FLAGS s)
                 (set_localization_map_ (Some (mkSummaryMap 0)) (this s))
                 (ros_shutdown_requested s)
                 (trace s ++ [SummaryMapLoad folder false; Log WARNING;
                              VIMapLoad folder false; Log FATAL]))).
    { unfold init. now rewrite (bind_Aborted _ _ _ _ Hloc). }
    split; [exact Hinit|].
    intros ps polls s0 Hctor. eexists. split.
    + unfold main. apply bind_Aborted.
      unfold main_until_exit. rewrite (bind_run _ _ _ _ _ Hctor).
      apply bind_Aborted. exact Hinit.
    + split; [reflexivity|]. cbn.
      destruct (RovioliApp_ctor_Returned ps s0 s Hctor) as [-> _].
      reflexivity.
Qed.

End AppFacts.

(** * The properties on concrete runs *)

(** With overwrite allowed, the directory [/maps/out] is kept as it is. *)
Lemma allocate_overwrite_keeps_path_witness :
  allocate world_out_taken 1 "/maps/out" true = Some "/maps/out".
Proof.
  apply (allocate_overwrite_keeps_path world_out_taken "/maps/out" 1).
  - reflexivity.
  - apply Nat.lt_0_1.
  - reflexivity.
Defined.

(** With overwrite allowed and [/maps/out] an existing regular file, the
    allocation does not resolve to [/maps/out]: [init] stores [/maps/out_0],
    and no amount of fuel makes the loop return the requested path. *)
Lemma allocate_overwrite_renames_over_file :
  FLAGS_overwrite_existing_map flags_overwrite_out = true
  /\ fileExists world_out_is_file "/maps/out" = true
  /\ allocate world_out_is_file 2 "/maps/out" true = Some "/maps/out_0"
  /\ save_map_folder_ (this (after_init world_out_is_file 2 flags_overwrite_out))
     = "/maps/out_0"
  /\ forall fuel,
       allocate world_out_is_file fuel "/maps/out" true <> Some "/maps/out".
Proof.
  split; [reflexivity|]. split; [reflexivity|].
  split; [vm_compute; reflexivity|]. split; [vm_compute; reflexivity|].
  intros [|[|fuel]]; cbn; discriminate.
Qed.

(** [/maps/out] and [/maps/out_0] exist: the allocation returns
    [/maps/out_1]. *)
Lemma allocate_smallest_free_suffix_witness :
  allocate world_out_taken 3 "/maps/out" false = Some "/maps/out_1"
  /\ "/maps/out_1" <> "/maps/out"
  /\ (forall q, exists_on_fs world_out_taken q = true -> "/maps/out_1" <> q).
Proof.
  apply (allocate_smallest_free_suffix world_out_taken "/maps/out" 1 3).
  - reflexivity.
  - reflexivity.
  - intros m Hm. replace m with 0%N by lia. reflexivity.
  - reflexivity.
  - reflexivity.
  - apply le_n.
Defined.

(** The persist operation fails to write, and [saveMap] returns true all the
    same. *)
Lemma saveMap_true_on_failed_persist :
  save_map_folder_ (this (after_init world_disk_full 1 flags_save_to_out))
  = "/maps/out"
  /\ persist_succeeds world_disk_full "/maps/out" false false = false
  /\ exists b s',
       saveMap world_disk_full (after_init world_disk_full 1 flags_save_to_out)
       = Returned b s'
       /\ saveMapCallback world_disk_full
            (after_init world_disk_full 1 flags_save_to_out)
          = Returned b s'
       /\ ~ (b = true
             <-> persist_succeeds world_disk_full "/maps/out" false false
                 = true).
Proof.
  split; [vm_compute; reflexivity|]. split; [reflexivity|].
  exists true.
  exists (final_state
            (saveMap world_disk_full
               (after_init world_disk_full 1 flags_save_to_out))).
  split; [vm_compute; reflexivity|]. split; [vm_compute; reflexivity|].
  intros [H _]. specialize (H eq_refl). discriminate H.
Qed.

Lemma saveMap_true_whatever_persist_witness :
  exists written s',
    saveMap world_disk_full (after_init world_disk_full 1 flags_save_to_out)
    = Returned true s'
    /\ saveMapCallback world_disk_full
         (after_init world_disk_full 1 flags_save_to_out)
       = Returned true s'
    /\ trace s'
       = trace (after_init world_disk_full 1 flags_save_to_out)
         ++ [NodeSaveMap "/maps/out" false false written]
    /\ written = false.
Proof.
  apply (saveMap_true_whatever_persist world_disk_full no_params
           [call_init 1] (process_start flags_save_to_out)
           (after_ctor world_disk_full flags_save_to_out)
           (after_init world_disk_full 1 flags_save_to_out)).
  - vm_compute. reflexivity.
  - vm_compute. reflexivity.
  - vm_compute. discriminate.
Defined.

(** No save folder on the command line: after [init] and [run], [saveMap]
    and the callback return false and change nothing. *)
Lemma saveMap_refused_without_folder_witness :
  saveMap world_disk_full
    (final_state (run (after_init world_disk_full 1
                         (default_flags false "rostopic" "" false false))))
  = Returned false
      (final_state (run (after_init world_disk_full 1
                           (default_flags false "rostopic" "" false false))))
  /\ saveMapCallback world_disk_full
       (final_state (run (after_init world_disk_full 1
                            (default_flags false "rostopic" "" false false))))
     = Returned false
         (final_state (run (after_init world_disk_full 1
                              (default_flags false "rostopic" "" false false)))).
Proof.
  apply (saveMap_refused_without_folder world_disk_full no_params
           [call_init 1; call_run]
           (process_start (default_flags false "rostopic" "" false false))
           (after_ctor world_disk_full
              (default_flags false "rostopic" "" false false))).
  - vm_compute. reflexivity.
  - vm_compute. reflexivity.
  - vm_compute. reflexivity.
Defined.

Lemma shutdown_stops_node_then_flushes_witness :
  exists s',
    shutdown (final_state (run (after_init world_disk_full 1 flags_save_to_out)))
    = Returned tt s'
    /\ trace s'
       = trace (final_state
                  (run (after_init world_disk_full 1 flags_save_to_out)))
         ++ [NodeShutdown; MessageFlowShutdown; MessageFlowWaitUntilIdle]
    /\ same_object
         (final_state (run (after_init world_disk_full 1 flags_save_to_out)))
         s'.
Proof.
  apply (shutdown_stops_node_then_flushes world_disk_full 1 [call_run]
           (after_ctor world_disk_full flags_save_to_out)
           (after_init world_disk_full 1 flags_save_to_out)).
  - vm_compute. reflexivity.
  - vm_compute. reflexivity.
Defined.

(** One sleep, then the data source is exhausted: shutdown, then the final
    save, since [save_map_on_shutdown] is true by default. *)
Lemma main_shuts_down_before_final_save_witness :
  exists s_end,
    main world_disk_full no_params 1 [(true, false); (true, true)]
      (process_start flags_save_to_out)
    = Returned 0%Z s_end
    /\ trace s_end
       = [AdvertiseService "save_map"; CalibrationLoad "ncamera.yaml" true;
          ImuLoad "imu-maplab.yaml" true; MessageFlowCreate 4;
          NodeConstruct "/maps/out"; SpinnerStart; NodeStart; Sleep;
          NodeShutdown; MessageFlowShutdown; MessageFlowWaitUntilIdle;
          NodeSaveMap "/maps/out" false false false].
Proof.
  assert (Hexit :
            main_until_exit world_disk_full no_params 1
              [(true, false); (true, true)] (process_start flags_save_to_out)
            = Returned tt
                (final_state
                   (main_until_exit world_disk_full no_params 1
                      [(true, false); (true, true)]
                      (process_start flags_save_to_out)))).
  { vm_compute. reflexivity. }
  destruct (main_shuts_down_before_final_save world_disk_full no_params 1
              [(true, false); (true, true)] (process_start flags_save_to_out)
              _ Hexit)
    as (s_down & s_end & _ & Hdown & Hmain & _ & Htrace).
  exists s_end. split; [exact Hmain|].
  rewrite Htrace, Hdown. vm_compute. reflexivity.
Defined.

(** Resources requested, no save folder, and a camera calibration that does
    not load: the CHECK of line 168 ends the process inside [init], before
    the test of line 190 is reached; [init] does not return false. *)
Lemma init_aborts_before_folder_test :
  FLAGS_map_builder_save_image_as_resources
    (FLAGS (after_ctor world_disk_full flags_resources_no_folder_bad_calibration))
  = true
  /\ FLAGS_save_map_folder
       (FLAGS (after_ctor world_disk_full
                 flags_resources_no_folder_bad_calibration))
     = ""
  /\ init world_disk_full 1
       (after_ctor world_disk_full flags_resources_no_folder_bad_calibration)
     = Aborted
         (after_init world_disk_full 1
            flags_resources_no_folder_bad_calibration)
  /\ trace (after_init world_disk_full 1
              flags_resources_no_folder_bad_calibration)
     = [AdvertiseService "save_map"; CalibrationLoad "missing.yaml" false;
        Log FATAL]
  /\ forall fuel s',
       init world_disk_full fuel
         (after_ctor world_disk_full flags_resources_no_folder_bad_calibration)
       <> Returned false s'.
Proof.
  split; [vm_compute; reflexivity|]. split; [vm_compute; reflexivity|].
  split; [vm_compute; reflexivity|]. split; [vm_compute; reflexivity|].
  intros fuel s'. vm_compute. discriminate.
Qed.

(** Resources requested, no save folder, calibration files in place: [init]
    logs the error and returns false. *)
Lemma init_rejects_resources_without_folder_witness :
  exists s',
    init world_disk_full 1 (after_ctor world_disk_full flags_resources_no_folder)
    = Returned false s'
    /\ trace s'
       = [AdvertiseService "save_map"; CalibrationLoad "ncamera.yaml" true;
          ImuLoad "imu-maplab.yaml" true; Log ERROR].
Proof.
  assert (Hres :
            FLAGS_map_builder_save_image_as_resources
              (FLAGS (after_ctor world_disk_full flags_resources_no_folder))
            = true) by (vm_compute; reflexivity).
  assert (Hfolder :
            FLAGS_save_map_folder
              (FLAGS (after_ctor world_disk_full flags_resources_no_folder))
            = "") by (vm_compute; reflexivity).
  destruct (init_rejects_resources_without_folder world_disk_full 1
              (after_ctor world_disk_full flags_resources_no_folder)
              Hres Hfolder) as (_ & _ & Hfalse).
  eexists. split.
  - apply (Hfalse
             (final_state
                (init_localization_map world_disk_full
                   (after_ctor world_disk_full flags_resources_no_folder)))
             (final_state
                (init_calibration world_disk_full
                   (final_state
                      (init_localization_map world_disk_full
                         (after_ctor world_disk_full
                            flags_resources_no_folder)))))
             (1%N, mkImu (mkImuSigmas true), mkImuSigmas true)).
    + vm_compute. reflexivity.
    + vm_compute. reflexivity.
  - vm_compute. reflexivity.
Defined.

(** [/maps/loc] holds a full VI map only: the node ends up with the summary
    map derived from it. *)
Lemma init_falls_back_to_full_map_witness :
  localization_map_
    (this (after_init world_full_map_only 1 (flags_localize_in "/maps/loc")))
  = Some (mkSummaryMap 7).
Proof.
  assert (Hflag :
            FLAGS_vio_localization_map_folder
              (FLAGS (after_ctor world_full_map_only
                        (flags_localize_in "/maps/loc")))
            = "/maps/loc") by (vm_compute; reflexivity).
  assert (Hne : "/maps/loc" <> "") by discriminate.
  assert (Hsummary :
            LocalizationSummaryMap_loadFromFolder world_full_map_only
              "/maps/loc" = None) by reflexivity.
  destruct (init_falls_back_to_full_map world_full_map_only 1
              (after_ctor world_full_map_only (flags_localize_in "/maps/loc"))
              "/maps/loc" Hflag Hne Hsummary) as [Hsome _].
  assert (Hvi : loadMapFromFolder world_full_map_only "/maps/loc" = Some 7%N)
    by (vm_compute; reflexivity).
  destruct (Hsome 7%N Hvi) as [_ Hret].
  assert (Hinit :
            init world_full_map_only 1
              (after_ctor world_full_map_only (flags_localize_in "/maps/loc"))
            = Returned true
                (after_init world_full_map_only 1
                   (flags_localize_in "/maps/loc")))
    by (vm_compute; reflexivity).
  destruct (Hret _ Hinit) as [Hmap _]. exact Hmap.
Defined.

(** After [init]: [run], two saves, [shutdown] and a last save all use
    [/maps/out]. *)
Lemma configuration_fixed_after_init_witness :
  exists s,
    invoke_all world_disk_full
      [call_run; call_saveMap; call_saveMapCallback; call_shutdown;
       call_saveMap]
      (after_init world_disk_full 1 flags_save_to_out)
    = Returned tt s
    /\ save_map_folder_ (this s) = "/maps/out"
    /\ grown_by (saves_with "/maps/out" false false)
         (trace (after_init world_disk_full 1 flags_save_to_out)) s.
Proof.
  assert (Hinit :
            init world_disk_full 1 (after_ctor world_disk_full flags_save_to_out)
            = Returned true (after_init world_disk_full 1 flags_save_to_out))
    by (vm_compute; reflexivity).
  assert (Hms :
            forallb (fun m => negb (is_init m))
              [call_run; call_saveMap; call_saveMapCallback; call_shutdown;
               call_saveMap] = true) by reflexivity.
  destruct (configuration_fixed_after_init world_disk_full 1 _ _ _ Hinit Hms)
    as (s & Hrun & _ & Hthis & _ & _ & Hgrown).
  exists s. split; [exact Hrun|]. split.
  - rewrite Hthis. vm_compute. reflexivity.
  - exact Hgrown.
Defined.

(** * Further properties of the code *)

(** ** The allocation loop, continued *)

Section MoreAllocationFacts.
Variable env : Env.

Lemma size_t_succ_bound (bits counter : N) :
  (size_t_succ bits counter < 2 ^ bits)%N.
Proof.
  unfold size_t_succ. apply N.mod_upper_bound.
  apply N.pow_nonzero. discriminate.
Qed.

(** What the loop returns is the candidate it started from or a suffixed
    name whose number fits the counter. *)
Lemma allocate_loop_result_shape (overwrite : bool) (requested : string)
    (fuel : nat) :
  forall (candidate : string) (c : N) (folder : string),
    (c < 2 ^ size_t_bits env)%N ->
    allocate_loop env fuel requested overwrite candidate c = Some folder ->
    folder = candidate
    \/ exists n, (n < 2 ^ size_t_bits env)%N /\ folder = suffixed requested n.
Proof.
  induction fuel as [|fuel IH]; intros candidate c folder Hc Hrun;
    simpl in Hrun; [discriminate|].
  destruct (taken env overwrite candidate).
  - apply IH in Hrun; [|apply size_t_succ_bound].
    destruct Hrun as [-> | Hn]; [|now right].
    right. now exists c.
  - inversion Hrun. now left.
Qed.

(** While every candidate is taken the loop goes on, the counter wrapping
    around within its range. *)
Lemma allocate_loop_all_taken (overwrite : bool) (requested : string)
    (fuel : nat) :
  (forall n, (n < 2 ^ size_t_bits env)%N ->
     taken env overwrite (suffixed requested n) = true) ->
  forall (candidate : string) (c : N),
    taken env overwrite candidate = true ->
    (c < 2 ^ size_t_bits env)%N ->
    allocate_loop env fuel requested overwrite candidate c = None.
Proof.
  intros Hall. induction fuel as [|fuel IH]; intros candidate c Hcand Hc.
  - reflexivity.
  - rewrite allocate_loop_taken by exact Hcand.
    apply IH; [now apply Hall | apply size_t_succ_bound].
Qed.

(** X1: after an [init] that returned true with a save folder configured,
    the folder stored in the object is not the name of a regular file, is
    not the name of a directory either unless overwriting is allowed, and is
    the configured folder itself or that folder with [_n] appended. *)
Theorem init_save_folder_is_free (fuel : nat) (s s' : State) :
  init env fuel s = Returned true s' ->
  FLAGS_save_map_folder (FLAGS s) <> "" ->
  fileExists env (save_map_folder_ (this s')) = false
  /\ (FLAGS_overwrite_existing_map (FLAGS s) = false ->
      pathExists env (save_map_folder_ (this s')) = false)
  /\ (save_map_folder_ (this s') = FLAGS_save_map_folder (FLAGS s)
      \/ exists n, (n < 2 ^ size_t_bits env)%N
                   /\ save_map_folder_ (this s')
                      = suffixed (FLAGS_save_map_folder (FLAGS s)) n).
Proof.
  intros Hinit Hne.
  destruct (init_true_constructed env fuel s s' Hinit) as (_ & _ & Halloc & _).
  unfold allocate in Halloc.
  destruct (FLAGS_save_map_folder (FLAGS s)) as [|c rest] eqn:Hreq;
    [congruence|].
  cbn [empty negb] in Halloc.
  assert (Hfree := allocate_loop_result_free env _ _ _ _ _ _ Halloc).
  apply orb_false_iff in Hfree as [Hfile Hdir].
  split; [exact Hfile|]. split.
  - intros How. rewrite How in Hdir. exact Hdir.
  - apply allocate_loop_result_shape in Halloc; [exact Halloc|].
    apply N.neq_0_lt_0, N.pow_nonzero. discriminate.
Qed.

(** X2: with overwrite allowed and the requested path [p] a regular file,
    the allocation returns [p_n] for the smallest [n] such that [p_n] is not
    a regular file; directories among the candidates are not skipped. *)
Theorem allocate_overwrite_first_non_file (p : string) (n : N) (fuel : nat) :
  p <> "" ->
  fileExists env p = true ->
  (forall m : N, (m < n)%N -> fileExists env (suffixed p m) = true) ->
  fileExists env (suffixed p n) = false ->
  (n < 2 ^ size_t_bits env)%N ->
  (N.to_nat n + 2 <= fuel)%nat ->
  allocate env fuel p true = Some (suffixed p n).
Proof.
  intros Hne Hp Hbelow Hfree Hrange Hfuel.
  assert (He : empty p = false) by (destruct p; [congruence | reflexivity]).
  unfold allocate. rewrite He. simpl.
  replace n with (0 + N.of_nat (N.to_nat n))%N by lia.
  apply allocate_loop_walk.
  - now rewrite taken_with_overwrite.
  - intros i Hi. rewrite taken_with_overwrite. apply Hbelow. lia.
  - rewrite taken_with_overwrite.
    replace (0 + N.of_nat (N.to_nat n))%N with n by lia. exact Hfree.
  - lia.
  - exact Hfuel.
Qed.

(** X3: when the requested folder and every suffixed candidate the counter
    can reach are taken, the loop of [init] never ends: no amount of fuel
    makes the allocation return, and [init] does not return either. *)
Theorem allocate_never_ends_when_all_taken (p : string) (overwrite : bool) :
  p <> "" ->
  taken env overwrite p = true ->
  (forall n, (n < 2 ^ size_t_bits env)%N ->
     taken env overwrite (suffixed p n) = true) ->
  (forall fuel, allocate env fuel p overwrite = None)
  /\ (forall fuel s b s',
        FLAGS_save_map_folder (FLAGS s) = p ->
        FLAGS_overwrite_existing_map (FLAGS s) = overwrite ->
        init env fuel s <> Returned b s').
Proof.
  intros Hne Hp Hall.
  assert (He : empty p = false) by (destruct p; [congruence | reflexivity]).
  assert (Hnone : forall fuel, allocate env fuel p overwrite = None).
  { intros fuel. unfold allocate. rewrite He. simpl.
    apply allocate_loop_all_taken; [exact Hall | exact Hp |].
    apply N.neq_0_lt_0, N.pow_nonzero. discriminate. }
  split; [exact Hnone|].
  intros fuel s b s' Hreq How Hinit.
  apply init_Returned in Hinit
    as (s1 & s2 & cam & imu & sig & _ & _ & _ & _ & _ & Hcase).
  rewrite Hreq, How, He, andb_false_r in Hcase.
  destruct Hcase as [_ (folder & Halloc & _)].
  rewrite Hnone in Halloc. discriminate.
Qed.

End MoreAllocationFacts.

(** ** The constructor *)

Section MoreAppFacts.
Variable env : Env.

(** The data source the constructor settles on (lines 126-136). *)
Lemma RovioliApp_ctor_datasource (ps : ParamServer) (s0 s1 : State) :
  RovioliApp_ctor env ps s0 = Returned tt s1 ->
  (FLAGS_datasource_type (FLAGS s1), FLAGS_datasource_rosbag (FLAGS s1))
  = if negb (empty (param_string ps "bagfile" ""))
       && negb (FLAGS_datasource_type (FLAGS s0) =? "rostopic")
    then ("rosbag", param_string ps "bagfile" "")
    else if (FLAGS_datasource_type (FLAGS s0) =? "rosbag")
            && empty (FLAGS_datasource_rosbag (FLAGS s0))
    then ("rostopic", FLAGS_datasource_rosbag (FLAGS s0))
    else (FLAGS_datasource_type (FLAGS s0),
          FLAGS_datasource_rosbag (FLAGS s0)).
Proof.
  unfold RovioliApp_ctor, bind, modify_this, get_FLAGS, put_FLAGS. cbn.
  destruct (negb (empty (param_string ps "bagfile" ""))
            && negb (FLAGS_datasource_type (FLAGS s0) =? "rostopic")).
  - cbn. intros H. inversion H. reflexivity.
  - destruct ((FLAGS_datasource_type (FLAGS s0) =? "rosbag")
              && empty (FLAGS_datasource_rosbag (FLAGS s0)));
      cbn; intros H; inversion H; reflexivity.
Qed.

(** The flags the constructor takes from ROS parameters (lines 103-123). *)
Lemma RovioliApp_ctor_settings (ps : ParamServer) (s0 s1 : State) :
  RovioliApp_ctor env ps s0 = Returned tt s1 ->
  FLAGS_vio_localization_map_folder (FLAGS s1)
  = param_string ps "vio_localization_map_folder"
      (FLAGS_vio_localization_map_folder (FLAGS s0))
  /\ FLAGS_ncamera_calibration (FLAGS s1)
     = param_string ps "ncamera_calibration"
         (FLAGS_ncamera_calibration (FLAGS s0))
  /\ FLAGS_imu_parameters_maplab (FLAGS s1)
     = param_string ps "imu_parameters_maplab"
         (FLAGS_imu_parameters_maplab (FLAGS s0))
  /\ FLAGS_save_map_folder (FLAGS s1)
     = param_string ps "save_map_folder" (FLAGS_save_map_folder (FLAGS s0))
  /\ FLAGS_overwrite_existing_map (FLAGS s1)
     = param_bool ps "overwrite_existing_map"
         (FLAGS_overwrite_existing_map (FLAGS s0))
  /\ FLAGS_optimize_map_to_localization_map (FLAGS s1)
     = param_bool ps "optimize_map_to_localization_map"
         (FLAGS_optimize_map_to_localization_map (FLAGS s0))
  /\ FLAGS_save_map_on_shutdown (FLAGS s1)
     = param_bool ps "save_map_on_shutdown"
         (FLAGS_save_map_on_shutdown (FLAGS s0))
  /\ FLAGS_publish_debug_markers (FLAGS s1)
     = param_bool ps "publish_debug_markers"
         (FLAGS_publish_debug_markers (FLAGS s0))
  /\ FLAGS_rovio_enable_frame_visualization (FLAGS s1)
     = param_bool ps "frame_visualization"
         (FLAGS_rovio_enable_frame_visualization (FLAGS s0))
  /\ FLAGS_external_imu_parameters_rovio (FLAGS s1)
     = FLAGS_external_imu_parameters_rovio (FLAGS s0)
  /\ FLAGS_map_builder_save_image_as_resources (FLAGS s1)
     = FLAGS_map_builder_save_image_as_resources (FLAGS s0).
Proof.
  unfold RovioliApp_ctor, bind, modify_this, get_FLAGS, put_FLAGS. cbn.
  destruct (negb (empty (param_string ps "bagfile" ""))
            && negb (FLAGS_datasource_type (FLAGS s0) =? "rostopic")).
  - cbn. intros H. inversion H. cbn. repeat split.
  - destruct ((FLAGS_datasource_type (FLAGS s0) =? "rosbag")
              && empty (FLAGS_datasource_rosbag (FLAGS s0)));
      cbn; intros H; inversion H; cbn; repeat split.
Qed.

Lemma empty_false_iff (p : string) : empty p = false <-> p <> "".
Proof. destruct p; cbn; split; congruence. Qed.

Lemma empty_true_iff (p : string) : empty p = true <-> p = "".
Proof. destruct p; cbn; split; congruence. Qed.

(** X4: once the object is constructed, a bag data source always has a bag
    file: [FLAGS_datasource_type] is never left at [rosbag] with an empty
    [FLAGS_datasource_rosbag]. *)
Theorem ctor_rosbag_has_bag (ps : ParamServer) (s0 s1 : State) :
  RovioliApp_ctor env ps s0 = Returned tt s1 ->
  FLAGS_datasource_type (FLAGS s1) = "rosbag" ->
  FLAGS_datasource_rosbag (FLAGS s1) <> "".
Proof.
  intros Hctor Htype. apply RovioliApp_ctor_datasource in Hctor.
  destruct (negb (empty (param_string ps "bagfile" ""))
            && negb (FLAGS_datasource_type (FLAGS s0) =? "rostopic")) eqn:Hbag.
  - injection Hctor as Ht Hb. rewrite Hb.
    apply andb_true_iff in Hbag as [Hbag _].
    apply negb_true_iff in Hbag. now apply empty_false_iff.
  - destruct ((FLAGS_datasource_type (FLAGS s0) =? "rosbag")
              && empty (FLAGS_datasource_rosbag (FLAGS s0))) eqn:Hno.
    + injection Hctor as Ht Hb. rewrite Htype in Ht. discriminate.
    + injection Hctor as Ht Hb. rewrite Hb. rewrite Htype in Ht.
      rewrite <- Ht, String.eqb_refl in Hno. cbn in Hno.
      now apply empty_false_iff.
Qed.

(** X5: a non-empty [bagfile] parameter makes the bag the data source, with
    that file, unless the data source type is [rostopic]; with [rostopic]
    the parameter is ignored and both data source flags stay as they
    were. *)
Theorem ctor_bagfile_precedence (ps : ParamServer) (s0 s1 : State)
    (bagfile : string) :
  RovioliApp_ctor env ps s0 = Returned tt s1 ->
  ps "bagfile" = Some (TypeString bagfile) ->
  bagfile <> "" ->
  if FLAGS_datasource_type (FLAGS s0) =? "rostopic"
  then FLAGS_datasource_type (FLAGS s1) = "rostopic"
       /\ FLAGS_datasource_rosbag (FLAGS s1)
          = FLAGS_datasource_rosbag (FLAGS s0)
  else FLAGS_datasource_type (FLAGS s1) = "rosbag"
       /\ FLAGS_datasource_rosbag (FLAGS s1) = bagfile.
Proof.
  intros Hctor Hps Hne. apply RovioliApp_ctor_datasource in Hctor.
  unfold param_string in Hctor. rewrite Hps in Hctor.
  apply empty_false_iff in Hne. rewrite Hne in Hctor. cbn [negb andb] in Hctor.
  destruct (FLAGS_datasource_type (FLAGS s0) =? "rostopic") eqn:Htopic.
  - cbn in Hctor. apply String.eqb_eq in Htopic. rewrite Htopic in Hctor.
    cbn in Hctor. injection Hctor as Ht Hb. now split.
  - cbn in Hctor. injection Hctor as Ht Hb. now split.
Qed.

(** X6: the constructor is idempotent on the flags: constructing a second
    object with the same ROS parameters leaves every flag as the first
    construction set it. *)
Theorem ctor_twice_same_flags (ps : ParamServer) (s0 s1 s2 : State) :
  RovioliApp_ctor env ps s0 = Returned tt s1 ->
  RovioliApp_ctor env ps s1 = Returned tt s2 ->
  FLAGS s2 = FLAGS s1.
Proof.
  intros H1 H2.
  assert (D1 := RovioliApp_ctor_datasource ps s0 s1 H1).
  assert (D2 := RovioliApp_ctor_datasource ps s1 s2 H2).
  assert (S1 := RovioliApp_ctor_settings ps s0 s1 H1).
  assert (S2 := RovioliApp_ctor_settings ps s1 s2 H2).
  destruct S1 as (A1 & A2 & A3 & A4 & A5 & A6 & A7 & A8 & A9 & A10 & A11).
  destruct S2 as (B1 & B2 & B3 & B4 & B5 & B6 & B7 & B8 & B9 & B10 & B11).
  assert (Hs : forall name d, param_string ps name (param_string ps name d)
                              = param_string ps name d).
  { intros name d. unfold param_string. now destruct (ps name) as [[|]|]. }
  assert (Hb : forall name d, param_bool ps name (param_bool ps name d)
                              = param_bool ps name d).
  { intros name d. unfold param_bool. now destruct (ps name) as [[|]|]. }
  rewrite A1, Hs in B1. rewrite A2, Hs in B2. rewrite A3, Hs in B3.
  rewrite A4, Hs in B4. rewrite A5, Hb in B5. rewrite A6, Hb in B6.
  rewrite A7, Hb in B7. rewrite A8, Hb in B8. rewrite A9, Hb in B9.
  rewrite <- A1 in B1. rewrite <- A2 in B2. rewrite <- A3 in B3.
  rewrite <- A4 in B4. rewrite <- A5 in B5. rewrite <- A6 in B6.
  rewrite <- A7 in B7. rewrite <- A8 in B8. rewrite <- A9 in B9.
  assert (Hd : (FLAGS_datasource_type (FLAGS s2),
                FLAGS_datasource_rosbag (FLAGS s2))
               = (FLAGS_datasource_type (FLAGS s1),
                  FLAGS_datasource_rosbag (FLAGS s1))).
  { rewrite D2.
    destruct (negb (empty (param_string ps "bagfile" ""))
              && negb (FLAGS_datasource_type (FLAGS s0) =? "rostopic"))
      eqn:Hbag.
    - injection D1 as Ht Hb'. rewrite Ht, Hb'.
      apply andb_true_iff in Hbag as [Hbag _]. rewrite Hbag. reflexivity.
    - destruct ((FLAGS_datasource_type (FLAGS s0) =? "rosbag")
                && empty (FLAGS_datasource_rosbag (FLAGS s0))) eqn:Hno.
      + injection D1 as Ht Hb'. rewrite Ht, Hb'. cbn.
        now rewrite andb_false_r.
      + injection D1 as Ht Hb'. rewrite Ht, Hb', Hbag, Hno.
        reflexivity. }
  injection Hd as Ht Hr.
  destruct (FLAGS s2), (FLAGS s1). cbn in *. congruence.
Qed.

(** ** The object between calls *)

Lemma object_invariant_ctor (ps : ParamServer) (s0 s1 : State) :
  RovioliApp_ctor env ps s0 = Returned tt s1 -> object_invariant s1.
Proof.
  intros H. apply RovioliApp_ctor_Returned in H as [Hthis _].
  unfold object_invariant. rewrite Hthis. cbn. now split.
Qed.

Lemma object_invariant_init (fuel : nat) (b : bool) (s s' : State) :
  object_invariant s -> init env fuel s = Returned b s' -> object_invariant s'.
Proof.
  intros Hinv Hinit. apply init_Returned in Hinit
    as (sx & sy & cam & imu & sig & _ & _ & Hsame & _ & _ & Hcase).
  destruct (same_but_map_fields _ _ Hsame) as (Hi & Hfold & _ & Hflow & Hnode).
  unfold object_invariant in *.
  destruct (FLAGS_map_builder_save_image_as_resources (FLAGS s)
            && empty (FLAGS_save_map_folder (FLAGS s))).
  - destruct Hcase as [_ ->]. cbn. now rewrite Hnode, Hi, Hfold, Hflow.
  - destruct Hcase as [_ (folder & _ & ->)]. cbn.
    split; [reflexivity|]. split; [discriminate | reflexivity].
Qed.

(** X7: between any two calls made on a constructed object, the node exists
    exactly when [initialized_] is set; then the message flow exists too and
    the node holds the save folder the object holds; as long as no [init]
    has succeeded the stored save folder is empty. *)
Theorem object_invariant_holds (ps : ParamServer) (ms : list method)
    (s0 s1 s : State) :
  RovioliApp_ctor env ps s0 = Returned tt s1 ->
  invoke_all env ms s1 = Returned tt s ->
  object_invariant s.
Proof.
  intros Hctor Hcalls.
  apply (invoke_all_invariant env object_invariant) with (ms := ms) (s := s1).
  - intros sa sb H [_ Hobj]. unfold object_invariant in *. now rewrite Hobj.
  - intros fuel b sa sb H Hinit. eapply object_invariant_init; eassumption.
  - eapply object_invariant_ctor; eassumption.
  - exact Hcalls.
Qed.

(** X8: [run] never fails on a constructed object, whatever was called
    before: it returns the value of [initialized_], starting the spinner and
    then the node when that is true and doing nothing when it is false. *)
Theorem run_never_fails (ps : ParamServer) (ms : list method)
    (s0 s1 s : State) :
  RovioliApp_ctor env ps s0 = Returned tt s1 ->
  invoke_all env ms s1 = Returned tt s ->
  run s
  = Returned (initialized_ (this s))
      (mkState (FLAGS s) (this s) (ros_shutdown_requested s)
         (trace s
          ++ (if initialized_ (this s) then [SpinnerStart; NodeStart]
              else []))).
Proof.
  intros Hctor Hcalls.
  assert (Hinv : object_invariant s).
  { apply (invoke_all_invariant env object_invariant) with (ms := ms) (s := s1).
    - intros sa sb H [_ Hobj]. unfold object_invariant in *. now rewrite Hobj.
    - intros fuel b sa sb H Hinit. eapply object_invariant_init; eassumption.
    - eapply object_invariant_ctor; eassumption.
    - exact Hcalls. }
  unfold object_invariant in Hinv.
  unfold run, bind, get_this, deref_node, emit, ret.
  destruct s as [g a r t]. cbn in *.
  destruct (rovio_localization_node_ a) as [n|] eqn:Hn.
  - destruct Hinv as (-> & _ & _). cbn. rewrite Hn. cbn.
    now rewrite <- app_assoc.
  - destruct Hinv as (-> & _). cbn. now rewrite app_nil_r.
Qed.



(** ** [main], continued *)

Lemma init_keeps_ros (r : bool) (fuel : nat) :
  stable (fun s => ros_shutdown_requested s = r) (init env fuel).
Proof.
  unfold init, init_localization_map, init_calibration.
  stable_walk ltac:(assumption).
Qed.

Lemma RovioliApp_ctor_keeps_ros (r : bool) (ps : ParamServer) :
  stable (fun s => ros_shutdown_requested s = r) (RovioliApp_ctor env ps).
Proof. unfold RovioliApp_ctor. stable_walk ltac:(assumption). Qed.

(** X10: when [init] returns false, [main] logs the failure, asks ROS to shut
    down, does the same for [run], which refuses to start, and then dies at
    the CHECK of [shouldExit]: nothing is started, nothing is shut down or
    saved, and [main] does not return. *)
Theorem main_dies_after_failed_init (ps : ParamServer) (fuel : nat)
    (polls : list (bool * bool)) (s0 s1 s2 : State) :
  RovioliApp_ctor env ps s0 = Returned tt s1 ->
  init env fuel s1 = Returned false s2 ->
  main env ps fuel polls s0
  = Aborted
      (mkState (FLAGS s2) (this s2) true
         (trace s2 ++ [RosLog FATAL; RosShutdown; RosLog FATAL; RosShutdown;
                       Log FATAL])).
Proof.
  intros Hctor Hinit.
  assert (Hinv : object_invariant s2).
  { eapply object_invariant_init; [|exact Hinit].
    eapply object_invariant_ctor; exact Hctor. }
  assert (Hnode : rovio_localization_node_ (this s2) = None).
  { destruct (RovioliApp_ctor_Returned env ps s0 s1 Hctor) as [Hthis _].
    apply init_Returned in Hinit
      as (sx & sy & cam & imu & sig & _ & _ & Hsame & _ & _ & Hcase).
    destruct (same_but_map_fields _ _ Hsame) as (_ & _ & _ & _ & Hn).
    destruct (FLAGS_map_builder_save_image_as_resources (FLAGS s1)
              && empty (FLAGS_save_map_folder (FLAGS s1))).
    - destruct Hcase as [_ ->]. cbn. rewrite Hn, Hthis. reflexivity.
    - destruct Hcase as [Hb _]. discriminate. }
  unfold object_invariant in Hinv. rewrite Hnode in Hinv.
  destruct Hinv as [Hi _].
  unfold main. apply bind_Aborted. unfold main_until_exit.
  rewrite (bind_run _ _ _ _ _ Hctor). rewrite (bind_run _ _ _ _ _ Hinit).
  destruct s2 as [g a r t]. cbn in Hnode, Hi.
  unfold bind, run, shouldExit, get_this, CHECK, emit, ros_shutdown, ret,
    abort.
  cbn. rewrite Hi. cbn. rewrite Hnode. cbn.
  now rewrite <- !app_assoc.
Qed.

(** The loop on observations that all say to go on, followed or not by one
    that says to stop. *)
Lemma wait_loop_run (waiting : list (bool * bool)) :
  forall (s : State),
    ros_shutdown_requested s = false ->
    forallb keeps_waiting waiting = true ->
    wait_loop waiting s
    = StillRunning
        (mkState (FLAGS s) (this s) false
           (trace s ++ repeat Sleep (length waiting)))
    /\ forall rest up end_of_days,
         up && negb end_of_days = false ->
         wait_loop (waiting ++ (up, end_of_days) :: rest) s
         = Returned tt
             (mkState (FLAGS s) (this s) false
                (trace s ++ repeat Sleep (length waiting))).
Proof.
  induction waiting as [|[u e] waiting IH]; intros s Hros Hwait.
  - destruct s as [g a r t]. cbn in Hros. subst r. cbn.
    rewrite app_nil_r. split; [reflexivity|].
    intros rest up end_of_days Hexit.
    unfold bind, ros_ok. cbn. rewrite andb_true_r, Hexit. reflexivity.
  - cbn in Hwait. apply andb_true_iff in Hwait as [Hue Hwait].
    unfold keeps_waiting in Hue. cbn in Hue.
    destruct (IH (mkState (FLAGS s) (this s) (ros_shutdown_requested s)
                    (trace s ++ [Sleep])) Hros Hwait) as [IH1 IH2].
    cbn in IH1, IH2. split.
    + cbn [wait_loop]. unfold bind at 1. unfold ros_ok.
      rewrite Hros. cbn [negb]. rewrite andb_true_r, Hue.
      unfold bind at 1. unfold emit. rewrite IH1. cbn [length repeat].
      now rewrite <- !app_assoc.
    + intros rest up end_of_days Hexit.
      cbn [app wait_loop]. unfold bind at 1. unfold ros_ok.
      rewrite Hros. cbn [negb]. rewrite andb_true_r, Hue.
      unfold bind at 1. unfold emit. rewrite (IH2 _ _ _ Hexit).
      cbn [length repeat]. now rewrite <- !app_assoc.
Qed.

(** X11: the wait loop of [main] sleeps once for every observation that
    shows ROS up and the data source not exhausted, and is left at the first
    observation that shows otherwise, with nothing else changed; while no
    such observation comes it keeps running. *)
Theorem wait_loop_sleeps_until_exit (waiting rest : list (bool * bool))
    (up end_of_days : bool) (s : State) :
  ros_shutdown_requested s = false ->
  forallb keeps_waiting waiting = true ->
  up && negb end_of_days = false ->
  wait_loop (waiting ++ (up, end_of_days) :: rest) s
  = Returned tt
      (mkState (FLAGS s) (this s) false
         (trace s ++ repeat Sleep (length waiting)))
  /\ wait_loop waiting s
     = StillRunning
         (mkState (FLAGS s) (this s) false
            (trace s ++ repeat Sleep (length waiting))).
Proof.
  intros Hros Hwait Hexit.
  destruct (wait_loop_run waiting s Hros Hwait) as [Hstill Hleft].
  split; [now apply Hleft | exact Hstill].
Qed.

(** X12: with an [init] that succeeds, [main] runs to its end as soon as an
    observation of the loop shows ROS down or the data source exhausted: it
    starts the spinner and the node, sleeps once per earlier observation,
    shuts down, saves if [FLAGS_save_map_on_shutdown] is set and a save
    folder is stored, and returns 0 with the object as [init] left it. *)
Theorem main_runs_to_completion (ps : ParamServer) (fuel : nat)
    (waiting rest : list (bool * bool)) (up end_of_days : bool)
    (s0 s1 s2 : State) :
  ros_shutdown_requested s0 = false ->
  RovioliApp_ctor env ps s0 = Returned tt s1 ->
  init env fuel s1 = Returned true s2 ->
  forallb keeps_waiting waiting = true ->
  up && negb end_of_days = false ->
  main env ps fuel (waiting ++ (up, end_of_days) :: rest) s0
  = Returned 0%Z
      (mkState (FLAGS s2) (this s2) false
         (trace s2 ++ [SpinnerStart; NodeStart]
          ++ repeat Sleep (length waiting)
          ++ shutdown_events
          ++ (if FLAGS_save_map_on_shutdown (FLAGS s2)
                 && negb (empty (save_map_folder_ (this s2)))
              then [NodeSaveMap (save_map_folder_ (this s2))
                      (FLAGS_overwrite_existing_map (FLAGS s2))
                      (FLAGS_optimize_map_to_localization_map (FLAGS s2))
                      (persist_succeeds env (save_map_folder_ (this s2))
                         (FLAGS_overwrite_existing_map (FLAGS s2))
                         (FLAGS_optimize_map_to_localization_map (FLAGS s2)))]
              else []))).
Proof.
  intros Hros0 Hctor Hinit Hwait Hexit.
  assert (Hros1 := stable_Returned _ _ _ _ _
                     (RovioliApp_ctor_keeps_ros false ps) Hros0 Hctor).
  assert (Hros2 := stable_Returned _ _ _ _ _
                     (init_keeps_ros false fuel) Hros1 Hinit).
  destruct (init_true_constructed env fuel s1 s2 Hinit)
    as ([Hn Hf] & _ & _ & n & En & _).
  assert (Hi : initialized_ (this s2) = true).
  { assert (Hinv : object_invariant s2).
    { eapply object_invariant_init; [|exact Hinit].
      eapply object_invariant_ctor; exact Hctor. }
    unfold object_invariant in Hinv. rewrite En in Hinv. tauto. }
  set (s3 := mkState (FLAGS s2) (this s2) false
               (trace s2 ++ [SpinnerStart; NodeStart])).
  assert (Hrun : run s2 = Returned true s3).
  { destruct s2 as [g a r t]. cbn in Hros2, En, Hi. subst r.
    unfold run, bind, get_this, deref_node, emit, ret. cbn.
    rewrite Hi. cbn. rewrite En. cbn. unfold s3. cbn.
    now rewrite <- app_assoc. }
  assert (Hcheck : shouldExit s3 = Returned tt s3).
  { unfold shouldExit, bind, get_this, CHECK. cbn. now rewrite En. }
  assert (Hloop := proj2 (wait_loop_run waiting s3 eq_refl Hwait)
                     rest up end_of_days Hexit).
  cbn [FLAGS this trace s3] in Hloop.
  set (s4 := mkState (FLAGS s2) (this s2) false
               ((trace s2 ++ [SpinnerStart; NodeStart])
                ++ repeat Sleep (length waiting))) in *.
  assert (Hexit4 :
            main_until_exit env ps fuel (waiting ++ (up, end_of_days) :: rest)
              s0 = Returned tt s4).
  { unfold main_until_exit.
    rewrite (bind_run _ _ _ _ _ Hctor). rewrite (bind_run _ _ _ _ _ Hinit).
    cbn [negb]. rewrite (bind_run (ret tt) _ s2 s2 tt eq_refl).
    rewrite (bind_run _ _ _ _ _ Hrun).
    cbn [negb]. rewrite (bind_run (ret tt) _ s3 s3 tt eq_refl).
    rewrite (bind_run _ _ _ _ _ Hcheck). exact Hloop. }
  assert (Hc4 : constructed s4) by (split; cbn; congruence).
  assert (Hdown := shutdown_constructed env s4 Hc4).
  unfold main. rewrite (bind_run _ _ _ _ _ Hexit4).
  unfold main_on_exit. rewrite (bind_run _ _ _ _ _ Hdown).
  unfold bind at 1. unfold get_FLAGS at 1. cbn [FLAGS s4].
  destruct (FLAGS_save_map_on_shutdown (FLAGS s2)); cbn [andb].
  - destruct (save_map_folder_ (this s2)) as [|c p] eqn:Hfolder.
    + unfold bind. rewrite saveMap_empty by exact Hfolder. cbn.
      unfold ret, shutdown_events.
      rewrite ?app_nil_r, <- ?app_assoc. reflexivity.
    + unfold bind.
      rewrite (saveMap_nonempty env _ n)
        by (cbn; rewrite ?Hfolder; congruence).
      cbn. rewrite ?Hfolder. unfold ret, shutdown_events.
      rewrite <- ?app_assoc. reflexivity.
  - cbn. unfold ret, shutdown_events.
    rewrite ?app_nil_r, <- ?app_assoc. reflexivity.
Qed.

(** ** [init], continued *)

(** What the calibration part has loaded when it returns. *)
Lemma init_calibration_Returned (s s' : State) (camera : NCamera) (imu : Imu)
    (sigmas : ImuSigmas) :
  init_calibration env s = Returned (camera, imu, sigmas) s' ->
  NCamera_loadFromYaml env (FLAGS_ncamera_calibration (FLAGS s)) = Some camera
  /\ createFromYaml_Imu env (FLAGS_imu_parameters_maplab (FLAGS s)) = Some imu
  /\ isValid (getImuSigmas imu) = true
  /\ isValid sigmas = true
  /\ if empty (FLAGS_external_imu_parameters_rovio (FLAGS s))
     then sigmas = getImuSigmas imu
     else ImuSigmas_loadFromYaml env
            (FLAGS_external_imu_parameters_rovio (FLAGS s)) = Some sigmas.
Proof.
  unfold init_calibration, bind, get_FLAGS, load, CHECK_ptr, CHECK, emit, ret,
    abort.
  cbn.
  destruct (NCamera_loadFromYaml env (FLAGS_ncamera_calibration (FLAGS s)))
    as [cam|]; cbn; [|discriminate].
  destruct (createFromYaml_Imu env (FLAGS_imu_parameters_maplab (FLAGS s)))
    as [i|]; cbn; [|discriminate].
  destruct (isValid (getImuSigmas i)) eqn:Hvalid; cbn; [|discriminate].
  destruct (empty (FLAGS_external_imu_parameters_rovio (FLAGS s))); cbn.
  - intros H. inversion H; subst. now repeat split.
  - destruct (ImuSigmas_loadFromYaml env
                (FLAGS_external_imu_parameters_rovio (FLAGS s))) as [sg|];
      cbn; [|discriminate].
    destruct (isValid sg) eqn:Hsg; cbn; [|discriminate].
    intros H. inversion H; subst. now repeat split.
Qed.

(** X13: [init] returns, with either result, only when the camera
    calibration has loaded, the IMU parameters have loaded with valid
    sigmas and, if a file of ROVIO sigmas is configured, that file has
    loaded with valid sigmas; otherwise the process has ended at a CHECK. *)
Theorem init_returns_only_with_calibration (fuel : nat) (s s' : State)
    (b : bool) :
  init env fuel s = Returned b s' ->
  (exists camera,
     NCamera_loadFromYaml env (FLAGS_ncamera_calibration (FLAGS s))
     = Some camera)
  /\ (exists imu,
        createFromYaml_Imu env (FLAGS_imu_parameters_maplab (FLAGS s))
        = Some imu
        /\ isValid (getImuSigmas imu) = true)
  /\ (FLAGS_external_imu_parameters_rovio (FLAGS s) <> "" ->
      exists sigmas,
        ImuSigmas_loadFromYaml env
          (FLAGS_external_imu_parameters_rovio (FLAGS s)) = Some sigmas
        /\ isValid sigmas = true).
Proof.
  intros Hinit. apply init_Returned in Hinit
    as (s1 & s2 & cam & imu & sig & Hloc & Hcal & _ & _ & _ & _).
  assert (H1 := stable_Returned _ _ _ _ _ (init_localization_map_frame env s)
                  (conj (same_but_map_refl s) (grown_by_refl _ s)) Hloc).
  destruct H1 as [[HF _] _].
  apply init_calibration_Returned in Hcal
    as (Hcam & Himu & Hvalid & Hsig & Hext).
  rewrite HF in Hcam, Himu, Hext.
  split; [now exists cam|]. split; [now exists imu|].
  intros Hne. apply empty_false_iff in Hne. rewrite Hne in Hext.
  now exists sig.
Qed.


(** The localization map step when no fall-back is needed. *)
Lemma init_localization_map_direct (s : State) :
  FLAGS_vio_localization_map_folder (FLAGS s) = ""
  \/ LocalizationSummaryMap_loadFromFolder env
       (FLAGS_vio_localization_map_folder (FLAGS s)) <> None ->
  exists s1,
    init_localization_map env s = Returned tt s1
    /\ FLAGS s1 = FLAGS s
    /\ grown_by (fun e => is_fallback e = false) (trace s) s1
    /\ localization_map_ (this s1)
       = if empty (FLAGS_vio_localization_map_folder (FLAGS s))
         then localization_map_ (this s)
         else LocalizationSummaryMap_loadFromFolder env
                (FLAGS_vio_localization_map_folder (FLAGS s)).
Proof.
  intros Hcase. unfold init_localization_map, bind, get_FLAGS, load.
  destruct (FLAGS_vio_localization_map_folder (FLAGS s)) as [|c rest] eqn:Hf.
  - cbn. exists s. split; [reflexivity|]. split; [reflexivity|].
    split; [apply grown_by_refl | reflexivity].
  - destruct Hcase as [Hcase | Hcase]; [discriminate|].
    cbn [empty negb].
    destruct (LocalizationSummaryMap_loadFromFolder env (String c rest))
      as [m|] eqn:Hm; [|congruence].
    cbn. eexists. split; [reflexivity|]. cbn. split; [reflexivity|].
    split; [|reflexivity].
    exists [SummaryMapLoad (String c rest) true].
    split; [reflexivity | repeat constructor].
Qed.

(** X15: when no localization map folder is configured, or the configured
    folder loads as a summary map, [init] never warns, never loads a full VI
    map and never derives a summary map, however it ends; and when it
    returns true the node holds the summary map that was loaded, or the map
    the object held before when no folder is configured. *)
Theorem init_without_fallback (fuel : nat) (s : State) :
  FLAGS_vio_localization_map_folder (FLAGS s) = ""
  \/ LocalizationSummaryMap_loadFromFolder env
       (FLAGS_vio_localization_map_folder (FLAGS s)) <> None ->
  grown_by (fun e => is_fallback e = false) (trace s)
    (final_state (init env fuel s))
  /\ forall s',
       init env fuel s = Returned true s' ->
       exists n,
         rovio_localization_node_ (this s') = Some n
         /\ node_localization_map n
            = if empty (FLAGS_vio_localization_map_folder (FLAGS s))
              then localization_map_ (this s)
              else LocalizationSummaryMap_loadFromFolder env
                     (FLAGS_vio_localization_map_folder (FLAGS s)).
Proof.
  intros Hcase.
  destruct (init_localization_map_direct s Hcase)
    as (s1 & Hloc & HF & Hgrown & Hmap).
  split.
  - unfold init. rewrite (bind_run _ _ _ _ _ Hloc).
    match goal with
    | |- grown_by _ _ (final_state (?m s1)) =>
        assert (Hst : stable (grown_by (fun e => is_fallback e = false)
                                (trace s)) m)
    end.
    { unfold init_calibration. stable_walk ltac:(grown_leaf). }
    now apply Hst.
  - intros s' Hinit.
    destruct (init_true_constructed env fuel s s' Hinit)
      as (_ & _ & _ & n & Hn & _ & Hnmap).
    exists n. split; [exact Hn|]. rewrite Hnmap.
    apply init_Returned in Hinit
      as (sa & sb & cam & imu & sig & Hloc' & _ & _ & Hthis & _ & Hcase').
    rewrite Hloc in Hloc'. inversion Hloc'; subst sa.
    destruct (FLAGS_map_builder_save_image_as_resources (FLAGS s)
              && empty (FLAGS_save_map_folder (FLAGS s))).
    + destruct Hcase' as [Hb _]. discriminate.
    + destruct Hcase' as [_ (folder & _ & ->)]. cbn.
      now rewrite Hthis.
Qed.

(** X16: when the folder loads as a full VI map only and the summary map
    derived from it has no landmark, the CHECK of line 161 ends the process
    inside [init], right after the derivation; [main] ends with it,
    before anything is built or started. *)
Theorem init_dies_on_empty_derived_map (fuel : nat) (s : State)
    (folder : string) (vi_map : VIMap) :
  FLAGS_vio_localization_map_folder (FLAGS s) = folder ->
  folder <> "" ->
  LocalizationSummaryMap_loadFromFolder env folder = None ->
  loadMapFromFolder env folder = Some vi_map ->
  GLandmarkPosition_cols
    (createLocalizationSummaryMapForWellConstrainedLandmarks env vi_map)
  = 0%N ->
  init env fuel s
  = Aborted
      (mkState (FLAGS s)
         (set_localization_map_
            (Some (createLocalizationSummaryMapForWellConstrainedLandmarks
                     env vi_map)) (this s))
         (ros_shutdown_requested s)
         (trace s ++ [SummaryMapLoad folder false; Log WARNING;
                      VIMapLoad folder true; SummaryMapCreate; Log FATAL]))
  /\ forall ps polls s0,
       RovioliApp_ctor env ps s0 = Returned tt s ->
       main env ps fuel polls s0
       = Aborted
           (mkState (FLAGS s)
              (set_localization_map_
                 (Some (createLocalizationSummaryMapForWellConstrainedLandmarks
                          env vi_map)) (this s))
              (ros_shutdown_requested s)
              (trace s ++ [SummaryMapLoad folder false; Log WARNING;
                           VIMapLoad folder true; SummaryMapCreate;
                           Log FATAL])).
Proof.
  intros Hflag Hne Hsummary Hvi Hcols.
  assert (Hloc := init_localization_map_fallback env s folder vi_map
                    Hflag Hne Hsummary Hvi).
  cbv zeta in Hloc. rewrite Hcols in Hloc. cbn in Hloc.
  rewrite <- app_assoc in Hloc. cbn in Hloc.
  assert (Hinit : init env fuel s = Aborted
            (mkState (FLAGS s)
               (set_localization_map_
                  (Some (createLocalizationSummaryMapForWellConstrainedLandmarks
                           env vi_map)) (this s))
               (ros_shutdown_requested s)
               (trace s ++ [SummaryMapLoad folder false; Log WARNING;
                            VIMapLoad folder true; SummaryMapCreate;
                            Log FATAL]))).
  { unfold init. now apply bind_Aborted. }
  split; [exact Hinit|].
  intros ps polls s0 Hctor. unfold main. apply bind_Aborted.
  unfold main_until_exit. rewrite (bind_run _ _ _ _ _ Hctor).
  now apply bind_Aborted.
Qed.

(** X17: false is returned by [init] for one configuration only, auxiliary
    resources to be saved and no save folder; every other failure of [init]
    ends the process or keeps it in the allocation loop, and every other
    return is true. *)
Theorem init_false_only_without_folder (fuel : nat) (s s' : State)
    (b : bool) :
  init env fuel s = Returned b s' ->
  b = negb (FLAGS_map_builder_save_image_as_resources (FLAGS s)
            && empty (FLAGS_save_map_folder (FLAGS s))).
Proof.
  intros Hinit. apply init_Returned in Hinit
    as (s1 & s2 & cam & imu & sig & _ & _ & _ & _ & _ & Hcase).
  destruct (FLAGS_map_builder_save_image_as_resources (FLAGS s)
            && empty (FLAGS_save_map_folder (FLAGS s)));
    now destruct Hcase as [-> _].
Qed.

(** Fuel only decides whether the loop is seen to end, not where. *)
Lemma allocate_loop_more_fuel (overwrite : bool) (requested : string)
    (fuel : nat) :
  forall (fuel' : nat) (candidate : string) (c : N) (folder : string),
    allocate_loop env fuel requested overwrite candidate c = Some folder ->
    (fuel <= fuel')%nat ->
    allocate_loop env fuel' requested overwrite candidate c = Some folder.
Proof.
  induction fuel as [|fuel IH]; intros fuel' candidate c folder Hrun Hle;
    simpl in Hrun; [discriminate|].
  destruct fuel' as [|fuel']; [lia|]. simpl.
  destruct (taken env overwrite candidate).
  - apply IH; [exact Hrun | lia].
  - exact Hrun.
Qed.

(** X18: when the configured save folder [p] exists, overwriting is not
    allowed and [p_n] is the first suffixed name that does not exist, an
    [init] that returns true has stored [p_n] as the save folder and has
    constructed the node with [p_n]. *)
Theorem init_stores_first_free_suffix (fuel : nat) (s s' : State)
    (p : string) (n : N) :
  init env fuel s = Returned true s' ->
  FLAGS_save_map_folder (FLAGS s) = p ->
  FLAGS_overwrite_existing_map (FLAGS s) = false ->
  p <> "" ->
  exists_on_fs env p = true ->
  (forall m : N, (m < n)%N -> exists_on_fs env (suffixed p m) = true) ->
  exists_on_fs env (suffixed p n) = false ->
  (n < 2 ^ size_t_bits env)%N ->
  save_map_folder_ (this s') = suffixed p n
  /\ exists node,
       rovio_localization_node_ (this s') = Some node
       /\ node_save_map_folder node = suffixed p n.
Proof.
  intros Hinit Hp How Hne Hexists Hbelow Hfree Hrange.
  destruct (init_true_constructed env fuel s s' Hinit)
    as (_ & _ & Halloc & node & Hnode & Hfolder & _).
  rewrite Hp, How in Halloc. unfold allocate in Halloc.
  apply empty_false_iff in Hne. rewrite Hne in Halloc. cbn [negb] in Halloc.
  assert (Hmore := allocate_loop_more_fuel false p fuel
                     (Nat.max fuel (N.to_nat n + 2)) p 0%N _ Halloc
                     (Nat.le_max_l _ _)).
  assert (Hwalk :
            allocate_loop env (Nat.max fuel (N.to_nat n + 2)) p false p 0
            = Some (suffixed p (0 + N.of_nat (N.to_nat n)))).
  { apply allocate_loop_walk.
    - exact Hexists.
    - intros i Hi. rewrite taken_without_overwrite. apply Hbelow. lia.
    - rewrite taken_without_overwrite.
      replace (0 + N.of_nat (N.to_nat n))%N with n by lia. exact Hfree.
    - lia.
    - apply Nat.le_max_r. }
  replace (0 + N.of_nat (N.to_nat n))%N with n in Hwalk by lia.
  rewrite Hwalk in Hmore. injection Hmore as Hsame.
  split; [congruence|]. exists node. split; [exact Hnode | congruence].
Qed.

End MoreAppFacts.

(** * The further properties on concrete runs *)

(** [/maps/out] and [/maps/out_0] are directories: [init] stores
    [/maps/out_1], which is neither a file nor a directory. *)
Lemma init_save_folder_is_free_witness :
  fileExists world_out_taken
    (save_map_folder_ (this (after_init world_out_taken 3 flags_save_to_out)))
  = false.
Proof.
  assert (Hinit :
            init world_out_taken 3 (after_ctor world_out_taken flags_save_to_out)
            = Returned true (after_init world_out_taken 3 flags_save_to_out))
    by (vm_compute; reflexivity).
  assert (Hne :
            FLAGS_save_map_folder
              (FLAGS (after_ctor world_out_taken flags_save_to_out)) <> "")
    by (vm_compute; discriminate).
  exact (proj1 (init_save_folder_is_free world_out_taken 3 _ _ Hinit Hne)).
Defined.

(** Overwrite allowed, [/maps/out] and [/maps/out_0] regular files,
    [/maps/out_1] a directory: the directory is chosen. *)
Lemma allocate_overwrite_first_non_file_witness :
  allocate world_files_then_dir 3 "/maps/out" true = Some (suffixed "/maps/out" 1).
Proof.
  apply (allocate_overwrite_first_non_file world_files_then_dir "/maps/out" 1 3).
  - discriminate.
  - reflexivity.
  - intros m Hm. replace m with 0%N by lia. reflexivity.
  - reflexivity.
  - reflexivity.
  - apply le_n.
Defined.

(** Every name is taken: a thousand iterations do not end the loop. *)
Lemma allocate_never_ends_when_all_taken_witness :
  allocate world_all_files 1000 "/maps/out" false = None.
Proof.
  refine (proj1 (allocate_never_ends_when_all_taken world_all_files
                   "/maps/out" false _ _ _) 1000%nat).
  - discriminate.
  - reflexivity.
  - intros n Hn. reflexivity.
Defined.

(** [--datasource_type=rosbag] and the [bagfile] parameter. *)
Lemma ctor_rosbag_has_bag_witness :
  FLAGS_datasource_rosbag
    (FLAGS (after_ctor_with world_disk_full params_bagfile flags_rosbag_no_bag))
  <> "".
Proof.
  apply (ctor_rosbag_has_bag world_disk_full params_bagfile
           (process_start flags_rosbag_no_bag)).
  - vm_compute. reflexivity.
  - vm_compute. reflexivity.
Defined.

(** [--datasource_type=rostopic]: the [bagfile] parameter is ignored. *)
Lemma ctor_bagfile_precedence_witness :
  FLAGS_datasource_type
    (FLAGS (after_ctor_with world_disk_full params_bagfile
              flags_rostopic_old_bag)) = "rostopic"
  /\ FLAGS_datasource_rosbag
       (FLAGS (after_ctor_with world_disk_full params_bagfile
                 flags_rostopic_old_bag)) = "/old.bag".
Proof.
  assert (Hctor :
            RovioliApp_ctor world_disk_full params_bagfile
              (process_start flags_rostopic_old_bag)
            = Returned tt
                (after_ctor_with world_disk_full params_bagfile
                   flags_rostopic_old_bag))
    by (vm_compute; reflexivity).
  assert (Hps : params_bagfile "bagfile" = Some (TypeString "/data/run.bag"))
    by reflexivity.
  assert (Hne : "/data/run.bag" <> "") by discriminate.
  exact (ctor_bagfile_precedence world_disk_full params_bagfile _ _
           "/data/run.bag" Hctor Hps Hne).
Defined.

Lemma ctor_twice_same_flags_witness :
  FLAGS (final_state
           (RovioliApp_ctor world_disk_full params_bagfile
              (after_ctor_with world_disk_full params_bagfile
                 flags_rosbag_no_bag)))
  = FLAGS (after_ctor_with world_disk_full params_bagfile flags_rosbag_no_bag).
Proof.
  apply (ctor_twice_same_flags world_disk_full params_bagfile
           (process_start flags_rosbag_no_bag)).
  - vm_compute. reflexivity.
  - vm_compute. reflexivity.
Defined.

(** A save request before [init], then [init], [run], [shutdown] and [init]
    once more. *)
Lemma object_invariant_holds_witness :
  object_invariant
    (after_calls world_disk_full flags_save_to_out
       [call_saveMap; call_init 1; call_run; call_shutdown; call_init 1]).
Proof.
  apply (object_invariant_holds world_disk_full no_params
           [call_saveMap; call_init 1; call_run; call_shutdown; call_init 1]
           (process_start flags_save_to_out)
           (after_ctor world_disk_full flags_save_to_out)).
  - vm_compute. reflexivity.
  - vm_compute. reflexivity.
Defined.

Lemma run_never_fails_witness :
  exists b s',
    run (after_calls world_disk_full flags_save_to_out
           [call_init 1; call_shutdown])
    = Returned b s'.
Proof.
  eexists. eexists.
  apply (run_never_fails world_disk_full no_params
           [call_init 1; call_shutdown] (process_start flags_save_to_out)
           (after_ctor world_disk_full flags_save_to_out)).
  - vm_compute. reflexivity.
  - vm_compute. reflexivity.
Defined.


(** Resources requested without a save folder: [main] does not return. *)
Lemma main_dies_after_failed_init_witness :
  exists s,
    main world_disk_full no_params 1 [(true, true)]
      (process_start flags_resources_no_folder)
    = Aborted s.
Proof.
  eexists.
  apply (main_dies_after_failed_init world_disk_full no_params 1 [(true, true)]
           (process_start flags_resources_no_folder)
           (after_ctor world_disk_full flags_resources_no_folder)
           (after_init world_disk_full 1 flags_resources_no_folder)).
  - vm_compute. reflexivity.
  - vm_compute. reflexivity.
Defined.

(** Two observations to sleep on, then the data source is exhausted. *)
Lemma wait_loop_sleeps_until_exit_witness :
  exists s',
    wait_loop ([(true, false); (true, false)] ++ (true, true) :: [])
      (process_start flags_save_to_out)
    = Returned tt s'.
Proof.
  eexists.
  refine (proj1 (wait_loop_sleeps_until_exit [(true, false); (true, false)] []
                   true true (process_start flags_save_to_out) _ _ _));
    reflexivity.
Defined.

Lemma main_runs_to_completion_witness :
  exists s,
    main world_disk_full no_params 1 ([(true, false)] ++ (false, false) :: [])
      (process_start flags_save_to_out)
    = Returned 0%Z s.
Proof.
  eexists.
  apply (main_runs_to_completion world_disk_full no_params 1 [(true, false)] []
           false false (process_start flags_save_to_out)
           (after_ctor world_disk_full flags_save_to_out)
           (after_init world_disk_full 1 flags_save_to_out)).
  - reflexivity.
  - vm_compute. reflexivity.
  - vm_compute. reflexivity.
  - reflexivity.
  - reflexivity.
Defined.

Lemma init_returns_only_with_calibration_witness :
  exists camera,
    NCamera_loadFromYaml world_rovio_sigmas
      (FLAGS_ncamera_calibration
         (FLAGS (after_ctor world_rovio_sigmas flags_rovio_sigmas)))
    = Some camera.
Proof.
  assert (Hinit :
            init world_rovio_sigmas 1
              (after_ctor world_rovio_sigmas flags_rovio_sigmas)
            = Returned true (after_init world_rovio_sigmas 1 flags_rovio_sigmas))
    by (vm_compute; reflexivity).
  exact (proj1 (init_returns_only_with_calibration world_rovio_sigmas 1 _ _ _
                  Hinit)).
Defined.


(** [/maps/loc] loads as a summary map. *)
Lemma init_without_fallback_witness :
  grown_by (fun e => is_fallback e = false)
    (trace (after_ctor world_summary_map (flags_localize_in "/maps/loc")))
    (final_state
       (init world_summary_map 1
          (after_ctor world_summary_map (flags_localize_in "/maps/loc")))).
Proof.
  refine (proj1 (init_without_fallback world_summary_map 1
                   (after_ctor world_summary_map (flags_localize_in "/maps/loc"))
                   _)).
  right. vm_compute. discriminate.
Defined.

(** [/maps/loc] holds a full VI map without well-constrained landmarks. *)
Lemma init_dies_on_empty_derived_map_witness :
  exists s',
    init world_poor_vi_map 1
      (after_ctor world_poor_vi_map (flags_localize_in "/maps/loc"))
    = Aborted s'.
Proof.
  eexists.
  refine (proj1 (init_dies_on_empty_derived_map world_poor_vi_map 1
                   (after_ctor world_poor_vi_map (flags_localize_in "/maps/loc"))
                   "/maps/loc" 0%N _ _ _ _ _)).
  - vm_compute. reflexivity.
  - discriminate.
  - reflexivity.
  - vm_compute. reflexivity.
  - reflexivity.
Defined.

Lemma init_false_only_without_folder_witness :
  false
  = negb (FLAGS_map_builder_save_image_as_resources
            (FLAGS (after_ctor world_disk_full flags_resources_no_folder))
          && empty (FLAGS_save_map_folder
                      (FLAGS (after_ctor world_disk_full
                                flags_resources_no_folder)))).
Proof.
  apply (init_false_only_without_folder world_disk_full 1
           (after_ctor world_disk_full flags_resources_no_folder)
           (after_init world_disk_full 1 flags_resources_no_folder)).
  vm_compute. reflexivity.
Defined.

(** [/maps/out] and [/maps/out_0] are directories and overwriting is off:
    the node is constructed with [/maps/out_1]. *)
Lemma init_stores_first_free_suffix_witness :
  save_map_folder_ (this (after_init world_out_taken 3 flags_save_to_out))
  = suffixed "/maps/out" 1
  /\ exists node,
       rovio_localization_node_
         (this (after_init world_out_taken 3 flags_save_to_out)) = Some node
       /\ node_save_map_folder node = suffixed "/maps/out" 1.
Proof.
  apply (init_stores_first_free_suffix world_out_taken 3
           (after_ctor world_out_taken flags_save_to_out)
           (after_init world_out_taken 3 flags_save_to_out) "/maps/out" 1).
  - vm_compute. reflexivity.
  - vm_compute. reflexivity.
  - vm_compute. reflexivity.
  - discriminate.
  - reflexivity.
  - intros m Hm. replace m with 0%N by lia. reflexivity.
  - reflexivity.
  - reflexivity.
Defined.

End Rovioli.
